(** * gulp-awslambda-deploy: a shallow embedding of the plugin and its deploy script

    The plugin is a through2 object stream.  [main] validates its two
    arguments and builds the stream; [transform] buffers the last file that
    flows through; [flush] runs the deploy script, a chain of promises over
    the vendor SDK (S3 upload, existence check, create or update, alias
    upsert), and finally calls the stream callback.

    The vendor SDK is the environment.  It is modelled as a record of
    oracles over an abstract world state [W]: every SDK method takes the
    request object the plugin built and the current world, and settles
    (resolves with a response or rejects with an error) in a new world.
    Every issued call is appended to a trace together with its arguments and
    the way it settled, so that the ordering and counting statements can be
    read off the trace.

    What is taken from the vendor's declarations rather than from the
    plugin: a response is an object of the declared shape ([Functions] is a
    list, a function configuration may lack its [Version], [getAlias] may
    resolve with nothing) and an error is an [Error] object, whose
    [message] is a string that may be empty.  What is taken from the gulp
    libraries: the [PluginError] constructor throws when it is given no
    plugin name or a falsy message, and [log], [push] and the stream
    callback do not throw. *)

From Stdlib Require Import ZArith String Ascii List Lia.
From stdpp Require Import base strings gmap list.

Set Warnings "-register-all".
Local Open Scope string_scope.

(** ** JavaScript values *)

(** What a Vinyl file carries in [file.contents]. *)
Inductive Contents :=
| ContentsNull
| ContentsBuffer (bytes : list Byte.byte)
| ContentsStream.

(** The values the plugin stores in the request objects it sends. *)
Inductive Value :=
| VUndefined
| VBool (b : bool)
| VNum (n : Z)
| VStr (s : string)
| VContents (c : Contents)
| VArr (l : list string)
| VObj (o : gmap string Value).

(** A JavaScript object used as a record of named fields. *)
Abbreviation Obj := (gmap string Value).

(** Truthiness of the optional fields of [params] and [options]. An absent
    property reads as [undefined]. *)
Definition truthy_string (s : string) : bool :=
  match s with
  | EmptyString => false
  | String _ _ => true
  end.

Definition truthy_str (o : option string) : bool :=
  match o with
  | Some s => truthy_string s
  | None => false
  end.

Definition truthy_bool (o : option bool) : bool :=
  match o with
  | Some b => b
  | None => false
  end.

Definition truthy_num (o : option Z) : bool :=
  match o with
  | Some n => negb (n =? 0)%Z
  | None => false
  end.

(** Reading an optional property into a request field. *)
Definition of_str (o : option string) : Value :=
  match o with Some s => VStr s | None => VUndefined end.

Definition of_bool (o : option bool) : Value :=
  match o with Some b => VBool b | None => VUndefined end.

Definition of_num (o : option Z) : Value :=
  match o with Some n => VNum n | None => VUndefined end.

(** String concatenation with a possibly absent property. *)
Definition to_string (o : option string) : string :=
  match o with Some s => s | None => "undefined" end.

(** [String.prototype.slice(start)] with a single argument: a negative
    [start] counts from the end, and both ends are clamped. *)
Definition slice (s : string) (start : Z) : string :=
  let len := Z.of_nat (String.length s) in
  let from := if (start <? 0)%Z then Z.max (len + start) 0 else Z.min start len in
  String.substring (Z.to_nat from) (Z.to_nat (len - from)) s.

(** ** The parameter objects (dist/index.d.ts) *)

Record S3Location := {
  bucket : option string;
  key : option string
}.

(** A Vinyl file: its path and its contents. *)
Record File := {
  path : string;
  contents : Contents
}.

Definition isNull (f : File) : bool :=
  match contents f with ContentsNull => true | _ => false end.

Definition isStream (f : File) : bool :=
  match contents f with ContentsStream => true | _ => false end.

(** [subnets] and [securityGroups]: a string or an array of strings. *)
Inductive Ids :=
| IdString (s : string)
| IdArray (l : list string).

Definition truthy_ids (o : option Ids) : bool :=
  match o with
  | Some (IdString s) => truthy_string s
  | Some (IdArray _) => true
  | None => false
  end.

Record Params := {
  functionName : option string;
  role : option string;
  s3 : option S3Location;
  alias : option string;
  publish : option bool;
  file : option File;
  handler : option string;
  runtime : option string;
  memory : option Z;
  description : option string;
  timeout : option Z;
  subnets : option Ids;
  securityGroups : option Ids
}.

Record Options := {
  region : option string;
  profile : option string
}.

(** [params.file = file], the one mutation of the shared [params] object. *)
Definition set_file (p : Params) (f : File) : Params :=
  {| functionName := functionName p; role := role p; s3 := s3 p;
     alias := alias p; publish := publish p; file := Some f;
     handler := handler p; runtime := runtime p; memory := memory p;
     description := description p; timeout := timeout p;
     subnets := subnets p; securityGroups := securityGroups p |}.

Definition DEFAULT_handler : string := "index.handler".
Definition DEFAULT_runtime : string := "nodejs14.x".

(** ** Errors *)

Record Error := { message : string }.

Record PluginError := {
  plugin : string;
  plugin_message : string
}.

(** What a function of the plugin throws: an [Error], or a [PluginError]
    it has built. *)
Definition Thrown : Type := Error + PluginError.

(** [new PluginError(plugin, message)]: the constructor refuses a falsy
    plugin name and a falsy message with an exception of its own. *)
Definition new_PluginError (name msg : string) : Thrown :=
  if negb (truthy_string name) then inl {| message := "Missing plugin name" |}
  else if negb (truthy_string msg) then inl {| message := "Missing error message" |}
  else inr {| plugin := name; plugin_message := msg |}.

(** [gulpError(message)]: the constructed error, or the constructor's
    exception. *)
Definition gulpError (msg : string) : Thrown :=
  new_PluginError "gulp-lambda-deploy" msg.

(** The error of reading a property of [undefined]. *)
Definition TypeError (prop : string) : Error :=
  {| message := "Cannot read properties of undefined (reading '" ++ prop ++ "')" |}.

(** ** Vendor responses *)

Record FunctionConfiguration := {
  FunctionName : option string;
  Version : option string
}.

Record ListFunctionsResponse := {
  Functions : list FunctionConfiguration
}.

Record AliasConfiguration := {
  Name : option string;
  FunctionVersion : option string
}.

Record PutObjectOutput := {
  ETag : option string
}.

Inductive Response :=
| RPutObject (d : PutObjectOutput)
| RListFunctions (r : ListFunctionsResponse)
| RFunction (fc : FunctionConfiguration)
| RGetAlias (a : option AliasConfiguration)
| RAlias (a : AliasConfiguration).

Inductive outcome (A : Type) :=
| Resolved (a : A)
| Rejected (e : Error).
Arguments Resolved {A} a.
Arguments Rejected {A} e.

Definition outcome_map {A B} (f : A -> B) (o : outcome A) : outcome B :=
  match o with
  | Resolved a => Resolved (f a)
  | Rejected e => Rejected e
  end.

(** ** The trace of issued vendor calls *)

Inductive Op :=
| OpPutObject
| OpListFunctions
| OpUpdateFunctionCode
| OpWaitFor
| OpUpdateFunctionConfiguration
| OpCreateFunction
| OpGetAlias
| OpCreateAlias
| OpUpdateAlias.

#[global] Instance Op_eq_dec : EqDecision Op.
Proof. solve_decision. Defined.

Record Entry := {
  op : Op;
  args : list Value;
  settled : outcome Response
}.

(** The entry logged for a call that settled with [r]. *)
Definition entry {A} (o : Op) (a : list Value) (inj : A -> Response)
    (r : outcome A) : Entry :=
  {| op := o; args := a; settled := outcome_map inj r |}.

Definition resolved (e : Entry) : bool :=
  match settled e with Resolved _ => true | Rejected _ => false end.

Definition ops (tr : list Entry) : list Op := map op tr.

Definition called (o : Op) (tr : list Entry) : bool :=
  bool_decide (o ∈ ops tr).

(** ** The plugin stream *)

(** The through2 stream closes over the shared [params] object; [pushed]
    is what it has emitted downstream and [logged] what it has logged. *)
Record Stream := {
  stream_params : Params;
  pushed : list File;
  logged : list string
}.

Definition log (msg : string) (st : Stream) : Stream :=
  {| stream_params := stream_params st; pushed := pushed st;
     logged := logged st ++ [msg] |}.

(** [stream.push(params.file)]. *)
Definition push (f : option File) (st : Stream) : Stream :=
  {| stream_params := stream_params st;
     pushed := pushed st ++ match f with Some f => [f] | None => [] end;
     logged := logged st |}.

Definition dquote : string := String "034"%char EmptyString.

(** [transform(file, enc, cb)]: a null file is skipped, a stream is
    refused with an exception, a buffer is remembered in [params.file]. *)
Definition transform (f : File) (st : Stream) : Thrown + Stream :=
  if isNull f then inr st
  else if isStream f then inl (gulpError "Stream content is not supported")
  else inr {| stream_params := set_file (stream_params st) f;
              pushed := pushed st; logged := logged st |}.

(** What [main] sets up besides the stream. *)
Record Plugin := {
  credentials_profile : option string;
  s3_region : option string;
  lambda_region : option string;
  plugin_stream : Stream
}.

(** [main(params, options)]: either throws or returns the stream. *)
Definition main (params : option Params) (options : option Options)
    : Thrown + Plugin :=
  match params with
  | None => inl (gulpError "No parameters provided")
  | Some p =>
  if negb (truthy_str (functionName p))
  then inl (gulpError "No Lambda function name provided")
  else if negb (truthy_str (role p))
  then inl (gulpError "No Lambda role provided")
  else
  match options with
  | None => inl (gulpError "No AWS options provided")
  | Some o =>
  if negb (truthy_str (region o))
  then inl (gulpError "No AWS region provided")
  else if negb (truthy_str (profile o))
  then inl (gulpError "No AWS profile provided")
  else
  let s3_check : option Thrown :=
    match s3 p with
    | Some loc =>
        if negb (truthy_str (bucket loc))
        then Some (gulpError "If uploading via S3, a bucket must be provided")
        else if negb (truthy_str (key loc))
        then Some (gulpError "If uploading via S3, a key must be provided")
        else None
    | None => None
    end in
  match s3_check with
  | Some e => inl e
  | None =>
  if truthy_str (alias p) && negb (truthy_bool (publish p))
  then inl (gulpError "An alias was provided but 'publish' was 'false'.")
  else inr {| credentials_profile := profile o;
              s3_region := region o;
              lambda_region := region o;
              plugin_stream := {| stream_params := p; pushed := []; logged := [] |} |}
  end
  end
  end.

(** ** The vendor SDK and the promise monad *)

Section Deploy.

(** The state of the cloud account, whatever it is. *)
Variable W : Type.

(** The SDK clients [s3] and [lambda]: each method settles in a new world. *)
Record SDK := {
  s3_putObject : Obj -> W -> outcome PutObjectOutput * W;
  lambda_listFunctions : Obj -> W -> outcome ListFunctionsResponse * W;
  lambda_updateFunctionCode : Obj -> W -> outcome FunctionConfiguration * W;
  lambda_waitFor : string -> Obj -> W -> outcome FunctionConfiguration * W;
  lambda_updateFunctionConfiguration : Obj -> W -> outcome FunctionConfiguration * W;
  lambda_createFunction : Obj -> W -> outcome FunctionConfiguration * W;
  lambda_getAlias : Obj -> W -> outcome (option AliasConfiguration) * W;
  lambda_createAlias : Obj -> W -> outcome AliasConfiguration * W;
  lambda_updateAlias : Obj -> W -> outcome AliasConfiguration * W
}.

Variable sdk : SDK.

Record Cloud := {
  world : W;
  trace : list Entry
}.

(** A promise is run against the cloud: it settles and leaves the cloud in
    a new state.  A [then] callback runs only once its promise has resolved;
    a rejection skips every later [then]. *)
Definition Promise (A : Type) : Type := Cloud -> outcome A * Cloud.

Definition resolve {A} (a : A) : Promise A := fun c => (Resolved a, c).

Definition reject {A} (e : Error) : Promise A := fun c => (Rejected e, c).

Definition then_ {A B} (m : Promise A) (f : A -> Promise B) : Promise B :=
  fun c =>
    match m c with
    | (Resolved a, c') => f a c'
    | (Rejected e, c') => (Rejected e, c')
    end.

(** Issuing one SDK call: the request goes out, settles, and is logged. *)
Definition issue {A} (o : Op) (a : list Value) (inj : A -> Response)
    (method : W -> outcome A * W) : Promise A :=
  fun c =>
    let '(r, w') := method (world c) in
    (r, {| world := w'; trace := trace c ++ [entry o a inj r] |}).

Notation "m >>= f" := (then_ m f) (at level 58, left associativity).

(** ** The deploy steps *)

(** The request object of [s3.putObject]. *)
Definition s3params (loc : S3Location) (f : File) : Obj :=
  <["Body" := VContents (contents f)]>
    (<["Key" := of_str (key loc)]>
       (<["Bucket" := of_str (bucket loc)]> ∅)).

Definition s3upload (params : Params) : Promise PutObjectOutput :=
  match s3 params, file params with
  | Some loc, Some f =>
      issue OpPutObject [VObj (s3params loc f)] RPutObject
        (s3_putObject sdk (s3params loc f))
  | None, _ => reject (TypeError "bucket")
  | Some _, None => reject (TypeError "contents")
  end.

(** The loop of [hasLambdaFunction] over [res.Functions]. *)
Fixpoint findFunction (functions : list FunctionConfiguration)
    (targetFunction : option string) : bool :=
  match functions with
  | [] => false
  | fc :: rest =>
      if bool_decide (FunctionName fc = targetFunction) then true
      else findFunction rest targetFunction
  end.

Definition hasLambdaFunction (targetFunction : option string) : Promise bool :=
  issue OpListFunctions [VObj ∅] RListFunctions (lambda_listFunctions sdk ∅)
    >>= (fun res => resolve (Functions res))
    >>= (fun functions => resolve (findFunction functions targetFunction)).

Definition waitFor_request (params : Params) : Obj :=
  <["FunctionName" := of_str (functionName params)]> ∅.

Definition waitForFunctionUpdated (params : Params) : Promise FunctionConfiguration :=
  issue OpWaitFor [VStr "functionUpdated"; VObj (waitFor_request params)] RFunction
    (lambda_waitFor sdk "functionUpdated" (waitFor_request params)).

(** The request object of [updateFunctionCode], or the error raised while
    building it. *)
Definition updateFunctionCode_request (params : Params) : Error + Obj :=
  let lamparams : Obj :=
    <["Publish" := of_bool (publish params)]>
      (<["FunctionName" := of_str (functionName params)]> ∅) in
  match s3 params with
  | Some loc =>
      inr (<["S3Key" := of_str (key loc)]>
             (<["S3Bucket" := of_str (bucket loc)]> lamparams))
  | None =>
      match file params with
      | Some f => inr (<["ZipFile" := VContents (contents f)]> lamparams)
      | None => inl (TypeError "contents")
      end
  end.

Definition updateFunctionCode (params : Params) : Promise FunctionConfiguration :=
  match updateFunctionCode_request params with
  | inr lamparams =>
      issue OpUpdateFunctionCode [VObj lamparams] RFunction
        (lambda_updateFunctionCode sdk lamparams)
  | inl e => reject e
  end.

(** The optional settings shared by the two configuration requests. *)
Definition with_memory (params : Params) (lamparams : Obj) : Obj :=
  if truthy_num (memory params)
  then <["MemorySize" := of_num (memory params)]> lamparams else lamparams.

Definition with_description (params : Params) (lamparams : Obj) : Obj :=
  if truthy_str (description params)
  then <["Description" := of_str (description params)]> lamparams else lamparams.

Definition with_timeout (params : Params) (lamparams : Obj) : Obj :=
  if truthy_num (timeout params)
  then <["Timeout" := of_num (timeout params)]> lamparams else lamparams.

Definition ids_array (o : option Ids) : Value :=
  match o with
  | Some (IdString s) => VArr [s]
  | Some (IdArray l) => VArr l
  | None => VUndefined
  end.

Definition with_vpc (params : Params) (lamparams : Obj) : Obj :=
  if truthy_ids (subnets params) && truthy_ids (securityGroups params)
  then <["VpcConfig" :=
           VObj (<["SecurityGroupIds" := ids_array (securityGroups params)]>
                   (<["SubnetIds" := ids_array (subnets params)]> ∅))]> lamparams
  else lamparams.

Definition or_default (o : option string) (d : string) : Value :=
  if truthy_str o then of_str o else VStr d.

Definition updateFunctionConfiguration_request (params : Params) : Obj :=
  let lamparams : Obj :=
    <["Runtime" := or_default (runtime params) DEFAULT_runtime]>
      (<["Handler" := or_default (handler params) DEFAULT_handler]>
         (<["Role" := of_str (role params)]>
            (<["FunctionName" := of_str (functionName params)]> ∅))) in
  with_vpc params
    (with_timeout params (with_description params (with_memory params lamparams))).

Definition updateFunctionConfiguration (params : Params)
    : Promise FunctionConfiguration :=
  let lamparams := updateFunctionConfiguration_request params in
  issue OpUpdateFunctionConfiguration [VObj lamparams] RFunction
    (lambda_updateFunctionConfiguration sdk lamparams).

Definition createFunction_request (params : Params) : Error + Obj :=
  let code : Error + Obj :=
    match s3 params with
    | Some loc =>
        inr (<["S3Key" := of_str (key loc)]>
               (<["S3Bucket" := of_str (bucket loc)]> ∅))
    | None =>
        match file params with
        | Some f => inr (<["ZipFile" := VContents (contents f)]> ∅)
        | None => inl (TypeError "contents")
        end
    end in
  match code with
  | inl e => inl e
  | inr code =>
      let lamparams : Obj :=
        <["Publish" := of_bool (publish params)]>
          (<["Role" := of_str (role params)]>
             (<["Runtime" := or_default (runtime params) DEFAULT_runtime]>
                (<["Handler" := or_default (handler params) DEFAULT_handler]>
                   (<["FunctionName" := of_str (functionName params)]>
                      (<["Code" := VObj code]> ∅))))) in
      inr (with_vpc params
             (with_timeout params
                (with_description params (with_memory params lamparams))))
  end.

Definition createFunction (params : Params) : Promise FunctionConfiguration :=
  match createFunction_request params with
  | inr lamparams =>
      issue OpCreateFunction [VObj lamparams] RFunction
        (lambda_createFunction sdk lamparams)
  | inl e => reject e
  end.

Definition getAlias_request (params : Params) : Obj :=
  <["Name" := of_str (alias params)]>
    (<["FunctionName" := of_str (functionName params)]> ∅).

Definition getAlias (params : Params) : Promise (option AliasConfiguration) :=
  let lamparams := getAlias_request params in
  issue OpGetAlias [VObj lamparams] RGetAlias (lambda_getAlias sdk lamparams).

Definition alias_request (version : Value) (params : Params) : Obj :=
  <["Name" := of_str (alias params)]>
    (<["FunctionVersion" := version]>
       (<["FunctionName" := of_str (functionName params)]> ∅)).

Definition createAlias (version : Value) (params : Params)
    : Promise AliasConfiguration :=
  let lamparams := alias_request version params in
  issue OpCreateAlias [VObj lamparams] RAlias (lambda_createAlias sdk lamparams).

Definition updateAlias (version : Value) (params : Params)
    : Promise AliasConfiguration :=
  let lamparams := alias_request version params in
  issue OpUpdateAlias [VObj lamparams] RAlias (lambda_updateAlias sdk lamparams).

Definition upsertAlias (version : Value) (params : Params)
    : Promise AliasConfiguration :=
  getAlias params >>= (fun alias =>
    match alias with
    | None => createAlias version params
    | Some _ => updateAlias version params
    end).

(** A run that starts with nothing issued yet. *)
Definition fresh (w : W) : Cloud := {| world := w; trace := [] |}.

(** ** The stream: buffering and flushing *)

(** What becomes of the callback of [flush]: it is called, with [None]
    for [cb()], or an exception escapes before it is reached and it is
    never called. *)
Inductive Callback :=
  | Called (err : option PluginError)
  | Uncalled (e : Error).

Record FlushResult := {
  callback : Callback;
  stream : Stream;
  cloud : Cloud
}.

(** [cb(gulpError(msg))]: the argument is built first, and the callback
    is reached only if the constructor returns. *)
Definition cb_gulpError (msg : string) : Callback :=
  match gulpError msg with
  | inr e => Called (Some e)
  | inl e => Uncalled e
  end.

(** A [then] callback that returns nothing resolves with [undefined]. *)
Definition void {A} (m : Promise A) : Promise unit :=
  m >>= (fun _ => resolve tt).

(** The promise chain of [flush], up to the final [done]. *)
Definition deploy (params : Params) : Promise unit :=
  resolve tt
    >>= (fun _ =>
           match s3 params with
           | Some _ => void (s3upload params)
           | None => resolve tt
           end)
    >>= (fun _ => hasLambdaFunction (functionName params))
    >>= (fun hasFunction : bool =>
           if hasFunction
           then updateFunctionCode params
                  >>= (fun _ => waitForFunctionUpdated params)
                  >>= (fun _ => updateFunctionConfiguration params)
           else createFunction params)
    >>= (fun upsertedFunction =>
           if truthy_str (alias params)
           then void (upsertAlias (of_str (Version upsertedFunction)) params)
           else resolve tt).

(** [done(err)].  It runs inside the last [then] or [catch] of the chain,
    so an exception of [gulpError] ends the run with the callback
    uncalled. *)
Definition done (err : option Error) (st : Stream) : Callback * Stream :=
  match err with
  | Some e => (cb_gulpError (message e), st)
  | None =>
      let st := log ("Lambda function " ++ dquote
                       ++ to_string (functionName (stream_params st))
                       ++ dquote ++ " successfully uploaded") st in
      (Called None, push (file (stream_params st)) st)
  end.

Definition flush (st : Stream) (c : Cloud) : FlushResult :=
  let params := stream_params st in
  let st := log ("Uploading Lambda function " ++ dquote
                   ++ to_string (functionName params) ++ dquote ++ "...") st in
  match file params with
  | None =>
      {| callback := cb_gulpError "No code provided"; stream := st; cloud := c |}
  | Some f =>
      if negb (String.eqb (slice (path f) (-4)) ".zip")
      then {| callback := cb_gulpError "Given file is not a zip";
              stream := st; cloud := c |}
      else
        match deploy params c with
        | (Resolved _, c') =>
            let '(r, st') := done None st in
            {| callback := r; stream := st'; cloud := c' |}
        | (Rejected err, c') =>
            let '(r, st') := done (Some err) st in
            {| callback := r; stream := st'; cloud := c' |}
        end
  end.

End Deploy.

Arguments flush {W} sdk st c.
Arguments deploy {W} sdk params c.
Arguments hasLambdaFunction {W} sdk targetFunction c.
Arguments fresh {W} w.
Arguments callback {W} f.
Arguments stream {W} f.
Arguments cloud {W} f.
Arguments world {W} c.
Arguments trace {W} c.

(** The vendor calls a run of [flush] issues from a fresh cloud. *)
Definition calls {W} (sdk : SDK W) (st : Stream) (w : W) : list Entry :=
  trace (cloud (flush sdk st (fresh w))).

(** ** The runs of the deploy script, as a relation *)

(** The entries the steps log. *)
Definition put_entry (loc : S3Location) (f : File) (r : outcome PutObjectOutput) : Entry :=
  entry OpPutObject [VObj (s3params loc f)] RPutObject r.

Definition list_entry (r : outcome ListFunctionsResponse) : Entry :=
  entry OpListFunctions [VObj ∅] RListFunctions r.

Definition code_entry (req : Obj) (r : outcome FunctionConfiguration) : Entry :=
  entry OpUpdateFunctionCode [VObj req] RFunction r.

Definition wait_entry (p : Params) (r : outcome FunctionConfiguration) : Entry :=
  entry OpWaitFor [VStr "functionUpdated"; VObj (waitFor_request p)] RFunction r.

Definition config_entry (p : Params) (r : outcome FunctionConfiguration) : Entry :=
  entry OpUpdateFunctionConfiguration
    [VObj (updateFunctionConfiguration_request p)] RFunction r.

Definition create_entry (req : Obj) (r : outcome FunctionConfiguration) : Entry :=
  entry OpCreateFunction [VObj req] RFunction r.

Definition getAlias_entry (p : Params) (r : outcome (option AliasConfiguration)) : Entry :=
  entry OpGetAlias [VObj (getAlias_request p)] RGetAlias r.

Definition createAlias_entry (p : Params) (v : Value) (r : outcome AliasConfiguration)
    : Entry :=
  entry OpCreateAlias [VObj (alias_request v p)] RAlias r.

Definition updateAlias_entry (p : Params) (v : Value) (r : outcome AliasConfiguration)
    : Entry :=
  entry OpUpdateAlias [VObj (alias_request v p)] RAlias r.

(** A step whose value the next [then] ignores. *)
Definition settle {A} (r : outcome A) : outcome unit := outcome_map (fun _ => tt) r.

(** Each stage of the chain relates the calls it logs to the way it
    settles.  [Deploy] chains the stages the way [then] does: a stage runs
    only when the one before it has resolved. *)
Inductive Upload (p : Params) : list Entry -> outcome unit -> Prop :=
| Upload_direct :
    s3 p = None -> Upload p [] (Resolved tt)
| Upload_s3 loc f r :
    s3 p = Some loc -> file p = Some f ->
    Upload p [put_entry loc f r] (settle r).

Inductive Check (p : Params) : list Entry -> outcome bool -> Prop :=
| Check_listed res :
    Check p [list_entry (Resolved res)]
      (Resolved (findFunction (Functions res) (functionName p)))
| Check_rejected e :
    Check p [list_entry (Rejected e)] (Rejected e).

Inductive Upsert (p : Params)
  : bool -> list Entry -> outcome FunctionConfiguration -> Prop :=
| Upsert_create req r :
    createFunction_request p = inr req ->
    Upsert p false [create_entry req r] r
| Upsert_code_rejected req e :
    updateFunctionCode_request p = inr req ->
    Upsert p true [code_entry req (Rejected e)] (Rejected e)
| Upsert_wait_rejected req fc e :
    updateFunctionCode_request p = inr req ->
    Upsert p true [code_entry req (Resolved fc); wait_entry p (Rejected e)] (Rejected e)
| Upsert_configured req fc fc' r :
    updateFunctionCode_request p = inr req ->
    Upsert p true
      [code_entry req (Resolved fc); wait_entry p (Resolved fc'); config_entry p r] r.

Inductive Alias (p : Params) (upserted : FunctionConfiguration)
  : list Entry -> outcome unit -> Prop :=
| Alias_none :
    truthy_str (alias p) = false -> Alias p upserted [] (Resolved tt)
| Alias_lookup_rejected e :
    truthy_str (alias p) = true ->
    Alias p upserted [getAlias_entry p (Rejected e)] (Rejected e)
| Alias_created r :
    truthy_str (alias p) = true ->
    Alias p upserted
      [getAlias_entry p (Resolved None);
       createAlias_entry p (of_str (Version upserted)) r] (settle r)
| Alias_updated a r :
    truthy_str (alias p) = true ->
    Alias p upserted
      [getAlias_entry p (Resolved (Some a));
       updateAlias_entry p (of_str (Version upserted)) r] (settle r).

Inductive Deploy (p : Params) : list Entry -> outcome unit -> Prop :=
| Deploy_upload_rejected up e :
    Upload p up (Rejected e) -> Deploy p up (Rejected e)
| Deploy_check_rejected up ck e :
    Upload p up (Resolved tt) -> Check p ck (Rejected e) ->
    Deploy p (up ++ ck) (Rejected e)
| Deploy_upsert_rejected up ck found us e :
    Upload p up (Resolved tt) -> Check p ck (Resolved found) ->
    Upsert p found us (Rejected e) ->
    Deploy p (up ++ ck ++ us) (Rejected e)
| Deploy_upserted up ck found us fc al r :
    Upload p up (Resolved tt) -> Check p ck (Resolved found) ->
    Upsert p found us (Resolved fc) -> Alias p fc al r ->
    Deploy p (up ++ ck ++ us ++ al) r.

(** A path that ends in [.zip]. *)
Definition ends_in_zip (s : string) : Prop := exists pre, s = pre ++ ".zip".

(** The error object of the plugin that carries a given message. *)
Definition plugin_error (msg : string) : PluginError :=
  {| plugin := "gulp-lambda-deploy"; plugin_message := msg |}.

(** What a run of [flush] does: the calls it issues, what becomes of the
    callback, and what the stream has pushed at the end. *)
Inductive Flushed (st : Stream)
  : list Entry -> Callback -> list File -> Prop :=
| Flushed_no_code :
    file (stream_params st) = None ->
    Flushed st [] (Called (Some (plugin_error "No code provided"))) (pushed st)
| Flushed_not_zip f :
    file (stream_params st) = Some f -> ~ ends_in_zip (path f) ->
    Flushed st [] (Called (Some (plugin_error "Given file is not a zip"))) (pushed st)
| Flushed_deployed f tr :
    file (stream_params st) = Some f -> ends_in_zip (path f) ->
    Deploy (stream_params st) tr (Resolved tt) ->
    Flushed st tr (Called None) (pushed st ++ [f])
| Flushed_failed f tr e :
    file (stream_params st) = Some f -> ends_in_zip (path f) ->
    Deploy (stream_params st) tr (Rejected e) ->
    Flushed st tr (cb_gulpError (message e)) (pushed st).

(** The first [n] characters of a string, and the rest. *)
Fixpoint string_take (n : nat) (s : string) : string :=
  match n, s with
  | O, _ => EmptyString
  | S n, String a s => String a (string_take n s)
  | S _, EmptyString => EmptyString
  end.

Fixpoint string_drop (n : nat) (s : string) : string :=
  match n, s with
  | O, _ => s
  | S n, String _ s => string_drop n s
  | S _, EmptyString => EmptyString
  end.

(** ** Vocabulary of the statements *)

(** The operation [o] was issued and resolved. *)
Definition resolved_call (o : Op) (tr : list Entry) : bool :=
  existsb (fun e => bool_decide (op e = o) && resolved e) tr.

(** The request object of a call: its last argument. *)
Definition request (e : Entry) : option Obj :=
  match last (args e) with
  | Some (VObj req) => Some req
  | _ => None
  end.

(** The two calls that send code to the platform. *)
Definition sends_code (e : Entry) : bool :=
  bool_decide (op e = OpCreateFunction) || bool_decide (op e = OpUpdateFunctionCode).

(** Where a call says the code is: the request itself for
    [updateFunctionCode], its [Code] field for [createFunction]. *)
Definition code_of (e : Entry) : option Obj :=
  match op e, request e with
  | OpUpdateFunctionCode, Some req => Some req
  | OpCreateFunction, Some req =>
      match req !! "Code" with
      | Some (VObj code) => Some code
      | _ => None
      end
  | _, _ => None
  end.

(** The order of the calls when the function exists; [upsert] is the
    alias call that follows [getAlias]. *)
Definition update_script (p : Params) (upsert : Op) : list Op :=
  match s3 p with Some _ => [OpPutObject] | None => [] end
  ++ [OpListFunctions; OpUpdateFunctionCode; OpWaitFor; OpUpdateFunctionConfiguration]
  ++ (if truthy_str (alias p) then [OpGetAlias; upsert] else []).

(** The call that completes the create-or-update step, and its value. *)
Definition completes_upsert (u : Entry) (fc : FunctionConfiguration) : Prop :=
  (op u = OpCreateFunction \/ op u = OpUpdateFunctionConfiguration)
  /\ settled u = Resolved (RFunction fc).

(** An alias request for [params.alias] of the function that points at
    the version of [fc]. *)
Definition points_at (p : Params) (fc : FunctionConfiguration) (a : Entry) : Prop :=
  exists req, request a = Some req
    /\ req !! "FunctionName" = Some (of_str (functionName p))
    /\ req !! "Name" = Some (of_str (alias p))
    /\ req !! "FunctionVersion" = Some (of_str (Version fc)).

(** *** Create or update *)

(** What the run does after an existence check that resolved: the update
    path issues [updateFunctionCode], then [waitFor] once that resolved,
    then [updateFunctionConfiguration] once the wait resolved. *)
Definition dispatches (p : Params) (tr : list Entry) : Prop :=
  forall res, list_entry (Resolved res) ∈ tr ->
    if findFunction (Functions res) (functionName p)
    then called OpUpdateFunctionCode tr = true
         /\ called OpCreateFunction tr = false
         /\ called OpWaitFor tr = resolved_call OpUpdateFunctionCode tr
         /\ called OpUpdateFunctionConfiguration tr = resolved_call OpWaitFor tr
    else called OpCreateFunction tr = true
         /\ called OpUpdateFunctionCode tr = false
         /\ called OpUpdateFunctionConfiguration tr = false.

(** The same with both update calls promised outright. *)
Definition dispatches_as_stated (p : Params) (tr : list Entry) : Prop :=
  forall res, list_entry (Resolved res) ∈ tr ->
    if findFunction (Functions res) (functionName p)
    then called OpUpdateFunctionCode tr = true
         /\ called OpUpdateFunctionConfiguration tr = true
         /\ called OpCreateFunction tr = false
    else called OpCreateFunction tr = true
         /\ called OpUpdateFunctionCode tr = false
         /\ called OpUpdateFunctionConfiguration tr = false.

(** *** The alias *)

(** After the call that completes the create-or-update step, [getAlias] is
    asked for the alias of the function; what follows depends on the way
    it settles. *)
Definition upserts_alias (p : Params) (tr : list Entry) : Prop :=
  forall i u fc, tr !! i = Some u -> completes_upsert u fc ->
    exists g, tr !! S i = Some g
      /\ op g = OpGetAlias
      /\ (exists req, request g = Some req
            /\ req !! "FunctionName" = Some (of_str (functionName p))
            /\ req !! "Name" = Some (of_str (alias p)))
      /\ match settled g with
         | Resolved (RGetAlias None) =>
             exists a, tr !! S (S i) = Some a
               /\ op a = OpCreateAlias /\ points_at p fc a
         | Resolved (RGetAlias (Some _)) =>
             exists a, tr !! S (S i) = Some a
               /\ op a = OpUpdateAlias /\ points_at p fc a
         | Resolved _ => False
         | Rejected _ => tr !! S (S i) = None
         end.

(** The same with the upsert promised outright: an alias call follows
    [getAlias] in every case, [createAlias] when it resolved with no alias
    and [updateAlias] when it resolved with one. *)
Definition upserts_alias_as_stated (p : Params) (tr : list Entry) : Prop :=
  forall i u fc, tr !! i = Some u -> completes_upsert u fc ->
    exists g a, tr !! S i = Some g
      /\ op g = OpGetAlias
      /\ tr !! S (S i) = Some a
      /\ (op a = OpCreateAlias \/ op a = OpUpdateAlias)
      /\ (settled g = Resolved (RGetAlias None) -> op a = OpCreateAlias)
      /\ (forall x, settled g = Resolved (RGetAlias (Some x)) -> op a = OpUpdateAlias)
      /\ points_at p fc a.

(** *** S3 or inline *)

(** The code goes through S3: the run starts with the one [putObject] of
    the file, and the code requests that follow name the S3 object. *)
Definition via_s3 (loc : S3Location) (f : File) (tr : list Entry) : Prop :=
  exists up rest, tr = up :: rest
    /\ op up = OpPutObject
    /\ (exists req, request up = Some req
          /\ req !! "Bucket" = Some (of_str (bucket loc))
          /\ req !! "Key" = Some (of_str (key loc))
          /\ req !! "Body" = Some (VContents (contents f)))
    /\ called OpPutObject rest = false
    /\ Forall (fun e => sends_code e = true ->
         exists code, code_of e = Some code
           /\ code !! "S3Bucket" = Some (of_str (bucket loc))
           /\ code !! "S3Key" = Some (of_str (key loc))
           /\ code !! "ZipFile" = None) rest.

(** The code is sent inline: no S3 call, and the code requests carry the
    contents of the buffered file. *)
Definition inline (p : Params) (tr : list Entry) : Prop :=
  called OpPutObject tr = false
  /\ Forall (fun e => sends_code e = true ->
       exists f code, file p = Some f /\ code_of e = Some code
         /\ code !! "ZipFile" = Some (VContents (contents f))) tr.

(** *** The end of the run *)

(** The exception of the [PluginError] constructor on a falsy message. *)
Definition missing_message : Error := {| message := "Missing error message" |}.

(** When the run has issued its deploy steps and every one of them
    resolved, the buffered file goes downstream once and the callback is
    called without an error; when a step was rejected nothing is pushed,
    and the callback receives the plugin's error with the message of that
    step's error, unless that message is empty: then the constructor's
    exception escapes and the callback is not called. *)
Definition pushes_on_success (st : Stream) (tr : list Entry)
    (cb : Callback) (out : list File) : Prop :=
  (tr <> [] -> forallb resolved tr = true ->
     exists f, file (stream_params st) = Some f
       /\ out = (pushed st ++ [f])%list /\ cb = Called None)
  /\ (forall e err, e ∈ tr -> settled e = Rejected err ->
        out = pushed st
        /\ (message err <> "" -> cb = Called (Some (plugin_error (message err))))
        /\ (message err = "" -> cb = Uncalled missing_message)).

(** The end of a run as the error clause has it: whenever a step was
    rejected, the callback receives an error of the plugin whose message is
    the message of that step's error. *)
Definition reports_as_stated (tr : list Entry) (cb : Callback) : Prop :=
  forall e err, e ∈ tr -> settled e = Rejected err ->
    exists pe, cb = Called (Some pe) /\ plugin_message pe = message err.

(** *** The arguments of [main] *)

(** A call that throws an error of the plugin. *)
Definition thrown {A} (r : Thrown + A) : Prop :=
  exists e : PluginError, r = inl (inr e).

(** The arguments [main] refuses: a missing or empty required string, an
    S3 location with a missing or empty part, an alias without publish. *)
Definition refused (params : option Params) (options : option Options) : Prop :=
  match params, options with
  | Some p, Some o =>
      truthy_str (functionName p) = false
      \/ truthy_str (role p) = false
      \/ truthy_str (region o) = false
      \/ truthy_str (profile o) = false
      \/ (exists loc, s3 p = Some loc
            /\ (truthy_str (bucket loc) = false \/ truthy_str (key loc) = false))
      \/ (truthy_str (alias p) = true /\ truthy_bool (publish p) = false)
  | _, _ => True
  end.

(** The same with "absent" read as: the property is missing. *)
Definition refused_as_stated (params : option Params) (options : option Options)
    : Prop :=
  match params, options with
  | Some p, Some o =>
      functionName p = None
      \/ role p = None
      \/ region o = None
      \/ profile o = None
      \/ (exists loc, s3 p = Some loc /\ (bucket loc = None \/ key loc = None))
      \/ (truthy_str (alias p) = true /\ truthy_bool (publish p) = false)
  | _, _ => True
  end.

(** The checks of [main] as one boolean. *)
Definition s3_complete (p : Params) : bool :=
  match s3 p with
  | Some loc => truthy_str (bucket loc) && truthy_str (key loc)
  | None => true
  end.

Definition accepted (p : Params) (o : Options) : bool :=
  truthy_str (functionName p) && truthy_str (role p)
  && truthy_str (region o) && truthy_str (profile o)
  && s3_complete p
  && negb (truthy_str (alias p) && negb (truthy_bool (publish p))).

(** ** Scripted accounts for concrete runs *)

(** An account in which [existing] lists the deployed functions, the
    operations in [failing] reject, [getAlias] resolves with [found], and
    create and update resolve with a configuration of version [version].
    The world counts the calls. *)
Record Script := {
  existing : list FunctionConfiguration;
  failing : list Op;
  found : option AliasConfiguration;
  version : option string
}.

Definition failure (o : Op) : Error :=
  match o with
  | OpPutObject => {| message := "AccessDenied" |}
  | OpGetAlias => {| message := "ResourceNotFoundException" |}
  | _ => {| message := "ServiceException" |}
  end.

Definition answer {A} (s : Script) (o : Op) (a : A) (w : nat) : outcome A * nat :=
  if bool_decide (o ∈ failing s) then (Rejected (failure o), S w)
  else (Resolved a, S w).

Definition scripted (s : Script) : SDK nat :=
  let fc := {| FunctionName := None; Version := version s |} in
  let al := {| Name := None; FunctionVersion := version s |} in
  {| s3_putObject := fun _ => answer s OpPutObject {| ETag := None |};
     lambda_listFunctions := fun _ =>
       answer s OpListFunctions {| Functions := existing s |};
     lambda_updateFunctionCode := fun _ => answer s OpUpdateFunctionCode fc;
     lambda_waitFor := fun _ _ => answer s OpWaitFor fc;
     lambda_updateFunctionConfiguration := fun _ =>
       answer s OpUpdateFunctionConfiguration fc;
     lambda_createFunction := fun _ => answer s OpCreateFunction fc;
     lambda_getAlias := fun _ => answer s OpGetAlias (found s);
     lambda_createAlias := fun _ => answer s OpCreateAlias al;
     lambda_updateAlias := fun _ => answer s OpUpdateAlias al |}.

Definition package_zip : File :=
  {| path := "dist/package.zip"; contents := ContentsBuffer [Byte.x50; Byte.x4b] |}.

Definition index_js : File :=
  {| path := "index.js"; contents := ContentsBuffer [Byte.x2f; Byte.x2f] |}.

(** Parameters that pass [main]: direct upload, no alias. *)
Definition basic_params : Params :=
  {| functionName := Some "hello"; role := Some "arn:aws:iam::1:role/r";
     s3 := None; alias := None; publish := None; file := None;
     handler := None; runtime := None; memory := None; description := None;
     timeout := None; subnets := None; securityGroups := None |}.

Definition basic_options : Options :=
  {| region := Some "eu-west-1"; profile := Some "default" |}.

Definition with_s3 (p : Params) : Params :=
  {| functionName := functionName p; role := role p;
     s3 := Some {| bucket := Some "artifacts"; key := Some "package.zip" |};
     alias := alias p; publish := publish p; file := file p;
     handler := handler p; runtime := runtime p; memory := memory p;
     description := description p; timeout := timeout p;
     subnets := subnets p; securityGroups := securityGroups p |}.

Definition with_alias (p : Params) : Params :=
  {| functionName := functionName p; role := role p; s3 := s3 p;
     alias := Some "live"; publish := Some true; file := file p;
     handler := handler p; runtime := runtime p; memory := memory p;
     description := description p; timeout := timeout p;
     subnets := subnets p; securityGroups := securityGroups p |}.

Definition stream_of (p : Params) : Stream :=
  {| stream_params := p; pushed := []; logged := [] |}.

(** A stream that has buffered [f]. *)
Definition buffered (p : Params) (f : File) : Stream := stream_of (set_file p f).

Definition hello : FunctionConfiguration :=
  {| FunctionName := Some "hello"; Version := Some "$LATEST" |}.

Definition other : FunctionConfiguration :=
  {| FunctionName := Some "other"; Version := Some "$LATEST" |}.

(** Everything resolves; nothing is deployed yet and no alias exists. *)
Definition empty_account : Script :=
  {| existing := []; failing := []; found := None; version := Some "1" |}.

(** The function is deployed already. *)
Definition deployed_account : Script :=
  {| existing := [other; hello]; failing := []; found := None; version := Some "7" |}.

(** The function is deployed and its code cannot be updated. *)
Definition locked_account : Script :=
  {| existing := [hello]; failing := [OpUpdateFunctionCode];
     found := None; version := Some "7" |}.

(** The alias does not exist and [getAlias] says so by rejecting. *)
Definition no_alias_account : Script :=
  {| existing := []; failing := [OpGetAlias]; found := None; version := Some "1" |}.

(** The alias exists. *)
Definition aliased_account : Script :=
  {| existing := [hello]; failing := [];
     found := Some {| Name := Some "live"; FunctionVersion := Some "6" |};
     version := Some "7" |}.

(** Parameters with an empty function name. *)
Definition unnamed_params : Params :=
  {| functionName := Some ""; role := Some "arn:aws:iam::1:role/r";
     s3 := None; alias := None; publish := None; file := None;
     handler := None; runtime := None; memory := None; description := None;
     timeout := None; subnets := None; securityGroups := None |}.

(** Parameters that ask for a VPC. *)
Definition vpc_params : Params :=
  {| functionName := Some "hello"; role := Some "arn:aws:iam::1:role/r";
     s3 := None; alias := None; publish := Some true; file := Some package_zip;
     handler := None; runtime := None; memory := Some 128%Z; description := None;
     timeout := None; subnets := Some (IdString "subnet-1");
     securityGroups := Some (IdArray ["sg-1"; "sg-2"]) |}.

(** ** The stream as a whole *)

Definition isBuffer (f : File) : bool :=
  match contents f with ContentsBuffer _ => true | _ => false end.

(** The files that flow through the stream, [transform] being called on
    each in turn; an exception of [transform] ends the stream. *)
Fixpoint transform_all (files : list File) (st : Stream) : Thrown + Stream :=
  match files with
  | [] => inr st
  | f :: rest =>
      match transform f st with
      | inl e => inl e
      | inr st' => transform_all rest st'
      end
  end.

(** The last of the files that carries a buffer. *)
Definition last_buffer (files : list File) : option File :=
  last (List.filter isBuffer files).

(** [gulp.src(...).pipe(lambda(params, options))]: [main] builds the
    stream, the files go through [transform], and [flush] ends it. *)
Definition pipeline {W} (sdk : SDK W) (params : option Params)
    (options : option Options) (files : list File) (w : W)
    : Thrown + FlushResult W :=
  match main params options with
  | inl e => inl e
  | inr plugin =>
      match transform_all files (plugin_stream plugin) with
      | inl e => inl e
      | inr st => inr (flush sdk st (fresh w))
      end
  end.

(** The order of the calls when the function does not exist yet. *)
Definition create_script (p : Params) (upsert : Op) : list Op :=
  match s3 p with Some _ => [OpPutObject] | None => [] end
  ++ [OpListFunctions; OpCreateFunction]
  ++ (if truthy_str (alias p) then [OpGetAlias; upsert] else []).

(** A field that holds a string that is not empty. *)
Definition names (req : Obj) (k : string) : Prop :=
  exists s, req !! k = Some (VStr s) /\ s <> "".

(** The requests of a run that went through [main] name what they act on. *)
Definition well_named (e : Entry) : Prop :=
  exists req, request e = Some req
    /\ match op e with
       | OpPutObject => names req "Bucket" /\ names req "Key"
       | OpListFunctions => req = ∅
       | OpCreateFunction | OpUpdateFunctionConfiguration =>
           names req "FunctionName" /\ names req "Role"
           /\ names req "Handler" /\ names req "Runtime"
       | OpUpdateFunctionCode | OpWaitFor => names req "FunctionName"
       | OpGetAlias | OpCreateAlias | OpUpdateAlias =>
           names req "FunctionName" /\ names req "Name"
       end.

(** The two messages [flush] logs. *)
Definition uploading_message (p : Params) : string :=
  "Uploading Lambda function " ++ dquote ++ to_string (functionName p) ++ dquote ++ "...".

Definition uploaded_message (p : Params) : string :=
  "Lambda function " ++ dquote ++ to_string (functionName p) ++ dquote
    ++ " successfully uploaded".

(** An account in which [updateFunctionCode] publishes version 8 and
    [updateFunctionConfiguration] answers with the unpublished one. *)
Definition publishing_account : SDK nat :=
  let answer {A} (a : A) (w : nat) : outcome A * nat := (Resolved a, S w) in
  {| s3_putObject := fun _ => answer {| ETag := None |};
     lambda_listFunctions := fun _ => answer {| Functions := [hello] |};
     lambda_updateFunctionCode := fun _ =>
       answer {| FunctionName := Some "hello"; Version := Some "8" |};
     lambda_waitFor := fun _ _ =>
       answer {| FunctionName := Some "hello"; Version := Some "8" |};
     lambda_updateFunctionConfiguration := fun _ => answer hello;
     lambda_createFunction := fun _ => answer hello;
     lambda_getAlias := fun _ => answer None;
     lambda_createAlias := fun _ =>
       answer {| Name := Some "live"; FunctionVersion := Some "$LATEST" |};
     lambda_updateAlias := fun _ =>
       answer {| Name := Some "live"; FunctionVersion := Some "$LATEST" |} |}.

(** An account in which [listFunctions] is rejected with an error that
    carries no text, as [new Error()] is. *)
Definition silent_account : SDK nat :=
  let answer {A} (a : A) (w : nat) : outcome A * nat := (Resolved a, S w) in
  {| s3_putObject := fun _ => answer {| ETag := None |};
     lambda_listFunctions := fun _ w => (Rejected {| message := "" |}, S w);
     lambda_updateFunctionCode := fun _ => answer hello;
     lambda_waitFor := fun _ _ => answer hello;
     lambda_updateFunctionConfiguration := fun _ => answer hello;
     lambda_createFunction := fun _ => answer hello;
     lambda_getAlias := fun _ => answer None;
     lambda_createAlias := fun _ =>
       answer {| Name := Some "live"; FunctionVersion := Some "1" |};
     lambda_updateAlias := fun _ =>
       answer {| Name := Some "live"; FunctionVersion := Some "1" |} |}.

(** A file without contents and a file that is a stream. *)
Definition empty_file : File := {| path := "empty.zip"; contents := ContentsNull |}.
Definition streamed_zip : File := {| path := "big.zip"; contents := ContentsStream |}.
Definition second_zip : File :=
  {| path := "dist/second.zip"; contents := ContentsBuffer [Byte.x50] |}.

(** Three files in a row, one of them without contents. *)
Definition piped : list File := [package_zip; empty_file; second_zip].

(** Parameters whose optional settings are there but falsy, but for the
    timeout. *)
Definition frugal_params : Params :=
  {| functionName := Some "hello"; role := Some "arn:aws:iam::1:role/r";
     s3 := None; alias := None; publish := None; file := Some package_zip;
     handler := Some ""; runtime := Some "python3.9"; memory := Some 0%Z;
     description := Some ""; timeout := Some 30%Z;
     subnets := Some (IdString "subnet-1"); securityGroups := None |}.

(** * Properties *)

(** ** The zip test of [flush] *)

Lemma substring_all (s : string) : substring 0 (String.length s) s = s.
Proof. induction s as [|a s IH]; simpl; [reflexivity | now rewrite IH]. Qed.

Lemma substring_drop (s : string) (n : nat) :
  n <= String.length s ->
  substring n (String.length s - n) s = string_drop n s.
Proof.
  revert n. induction s as [|a s IH]; intros [|n] H; simpl in *; try reflexivity.
  - now rewrite substring_all.
  - apply IH. lia.
Qed.

Lemma string_take_drop (s : string) (n : nat) :
  s = string_take n s ++ string_drop n s.
Proof.
  revert n. induction s as [|a s IH]; intros [|n]; simpl; try reflexivity.
  change (String a s = String a (string_take n s ++ string_drop n s)).
  f_equal. apply IH.
Qed.

Lemma string_drop_app (pre suf : string) :
  string_drop (String.length pre) (pre ++ suf) = suf.
Proof. induction pre as [|a pre IH]; [reflexivity | exact IH]. Qed.

Lemma string_length_app (a b : string) :
  String.length (a ++ b) = String.length a + String.length b.
Proof.
  induction a as [|x a IH]; [reflexivity |].
  change (S (String.length (a ++ b)) = S (String.length a + String.length b)).
  now rewrite IH.
Qed.

(** [slice(-k)] keeps the last [k] characters. *)
Lemma slice_last (s : string) (k : nat) :
  slice s (- Z.of_nat (S k)) = string_drop (String.length s - S k) s.
Proof.
  unfold slice.
  replace (- Z.of_nat (S k) <? 0)%Z with true by (symmetry; apply Z.ltb_lt; lia).
  set (len := String.length s).
  assert (Hfrom : Z.to_nat (Z.max (Z.of_nat len + - Z.of_nat (S k)) 0) = len - S k) by lia.
  rewrite Hfrom.
  replace (Z.to_nat (Z.of_nat len - Z.max (Z.of_nat len + - Z.of_nat (S k)) 0))
    with (len - (len - S k)) by lia.
  apply substring_drop. lia.
Qed.

Lemma slice_zip (s : string) : slice s (-4) = ".zip" <-> ends_in_zip s.
Proof.
  change (-4)%Z with (- Z.of_nat 4)%Z. rewrite slice_last. split.
  - intros H. exists (string_take (String.length s - 4) s).
    rewrite <- H. apply string_take_drop.
  - intros [pre ->]. rewrite string_length_app. simpl.
    replace (String.length pre + 4 - 4) with (String.length pre) by lia.
    apply string_drop_app.
Qed.

(** ** Every run of [flush] is a run of the script *)

(** Opening the chain: every promise is run against the cloud, and every
    way an SDK call can settle becomes a case. *)
Ltac unfold_run :=
  unfold deploy, void, s3upload, hasLambdaFunction, updateFunctionCode,
    waitForFunctionUpdated, updateFunctionConfiguration, createFunction, upsertAlias,
    getAlias, createAlias, updateAlias, then_, issue, resolve, reject, fresh in *;
  cbn [world trace] in *.

Ltac split_run :=
  repeat match goal with
  | |- context [match ?x with _ => _ end] =>
      lazymatch x with
      | context [match _ with _ => _ end] => fail
      | _ => destruct x eqn:?
      end
  end.

(** Rebuilding the derivation of a run from the calls it logged. *)
Ltac stage :=
  match goal with
  | |- s3 _ = _ => eassumption
  | |- file _ = _ => eassumption
  | |- truthy_str _ = _ => eassumption
  | |- updateFunctionCode_request _ = _ => eassumption
  | |- createFunction_request _ = _ => eassumption
  | H : findFunction _ _ = ?b |- Check _ _ (Resolved ?b) =>
      rewrite <- H; apply Check_listed
  | |- Check _ _ _ => econstructor
  | |- Upload _ _ _ => econstructor
  | |- Upsert _ _ _ _ => econstructor
  | |- Alias _ _ _ _ => econstructor
  end.

Tactic Notation "derive" uconstr(up) uconstr(us) uconstr(al) :=
  first
    [ solve [ eapply (Deploy_upload_rejected _ up); repeat stage ]
    | solve [ eapply (Deploy_check_rejected _ up [_]); repeat stage ]
    | solve [ eapply (Deploy_upsert_rejected _ up [_] _ us);
              [ | | repeat stage ]; repeat stage ]
    | solve [ eapply (Deploy_upserted _ up [_] _ us _ al);
              [ | | repeat stage | ]; repeat stage ] ].

Tactic Notation "derive_upsert" uconstr(up) uconstr(us) :=
  first [ derive up us [] | derive up us [_] | derive up us [_; _] ].

Tactic Notation "derive_upload" uconstr(up) :=
  first [ derive_upsert up [_] | derive_upsert up [_; _] | derive_upsert up [_; _; _] ].

Ltac derive_run := first [ derive_upload [] | derive_upload [_] ].

(** Taking a run apart again, down to the entries. *)
Ltac invert_stage :=
  match goal with
  | H : Deploy _ _ _ |- _ => inversion H; subst; clear H
  | H : Upload _ _ _ |- _ => inversion H; subst; clear H
  | H : Check _ _ _ |- _ => inversion H; subst; clear H
  | H : Upsert _ _ _ _ |- _ => inversion H; subst; clear H
  | H : Alias _ _ _ _ |- _ => inversion H; subst; clear H
  | H : settle ?r = _ |- _ => destruct r; cbn in H; simplify_eq
  | H : _ = settle ?r |- _ => destruct r; cbn in H; simplify_eq
  end.

Ltac invert_run H := inversion H; subst; clear H; repeat invert_stage.

Section Soundness.
Context {W : Type} (sdk : SDK W).

Lemma request_with_file (p : Params) (f : File) :
  file p = Some f ->
  (exists req, updateFunctionCode_request p = inr req)
  /\ (exists req, createFunction_request p = inr req).
Proof.
  intros Hf. unfold updateFunctionCode_request, createFunction_request.
  rewrite Hf. destruct (s3 p); eauto.
Qed.

Lemma deploy_runs (p : Params) (f : File) (w : W) :
  file p = Some f ->
  Deploy p (trace (deploy sdk p (fresh w)).2) (deploy sdk p (fresh w)).1.
Proof.
  intros Hf.
  destruct (request_with_file p f Hf) as [[code Hcode] [create Hcreate]].
  unfold_run. rewrite Hf, Hcode, Hcreate.
  split_run; cbn.
  all: derive_run.
Qed.

Lemma flush_runs (st : Stream) (w : W) :
  Flushed st (calls sdk st w)
    (callback (flush sdk st (fresh w)))
    (pushed (stream (flush sdk st (fresh w)))).
Proof.
  unfold calls, flush.
  destruct (file (stream_params st)) as [f|] eqn:Hf;
    [| cbn; apply Flushed_no_code; exact Hf].
  destruct (String.eqb_spec (slice (path f) (-4)) ".zip") as [Hzip | Hzip]; cbn.
  - apply slice_zip in Hzip.
    pose proof (deploy_runs (stream_params st) f w Hf) as Hrun.
    destruct (deploy sdk (stream_params st) (fresh w)) as [[[] | e] c']; cbn in *.
    + rewrite Hf. now apply Flushed_deployed.
    + now apply Flushed_failed with f.
  - apply Flushed_not_zip with f; [exact Hf |]. now rewrite <- slice_zip.
Qed.

End Soundness.

(** The cases of a run of [flush] from a fresh cloud. *)
Ltac run_cases sdk st w :=
  let H := fresh "Hrun" in
  pose proof (flush_runs sdk st w) as H; revert H;
  generalize (calls sdk st w), (callback (flush sdk st (fresh w))),
    (pushed (stream (flush sdk st (fresh w))));
  intros ? ? ? H; invert_run H; cbn [app] in *.

(** ** The guards and the discipline of the chain *)

(** [transform] remembers the last file that is neither null nor a stream,
    and pushes nothing. *)
Lemma transform_buffers_last (f : File) (st st' : Stream) :
  transform f st = inr st' ->
  file (stream_params st') = (if isNull f then file (stream_params st) else Some f)
  /\ pushed st' = pushed st.
Proof.
  unfold transform. destruct (isNull f), (isStream f); intros [= <-];
    split; reflexivity.
Qed.

(** Handing an error of the plugin to the callback: the callback gets it
    when the message is not empty, and is not reached when it is. *)
Lemma cb_gulpError_cases (msg : string) :
  (msg <> "" /\ cb_gulpError msg = Called (Some (plugin_error msg)))
  \/ (msg = "" /\ cb_gulpError msg = Uncalled missing_message).
Proof.
  destruct msg as [| a msg]; [right | left]; split;
    first [reflexivity | discriminate].
Qed.

Section Guards.
Context {W : Type} (sdk : SDK W).

(** C6. A run of [flush] with no buffered file calls back with
    'No code provided', and a run whose buffered file has a path that does
    not end in '.zip' calls back with 'Given file is not a zip'; in both
    cases the cloud is left as it was, so no S3 or Lambda call is issued,
    and nothing is pushed. *)
Theorem flush_refuses_missing_or_non_zip (st : Stream) (c : Cloud W) :
  (file (stream_params st) = None ->
     callback (flush sdk st c) = Called (Some (plugin_error "No code provided"))
     /\ cloud (flush sdk st c) = c
     /\ pushed (stream (flush sdk st c)) = pushed st)
  /\ (forall f, file (stream_params st) = Some f -> ~ ends_in_zip (path f) ->
       callback (flush sdk st c)
         = Called (Some (plugin_error "Given file is not a zip"))
       /\ cloud (flush sdk st c) = c
       /\ pushed (stream (flush sdk st c)) = pushed st).
Proof.
  split.
  - intros Hfile. unfold flush. rewrite Hfile. auto.
  - intros f Hfile Hzip. unfold flush. rewrite Hfile.
    destruct (String.eqb_spec (slice (path f) (-4)) ".zip") as [Heq | Hne].
    + exfalso. apply Hzip, slice_zip, Heq.
    + auto.
Qed.

(** C7. In a run of [flush] no vendor operation is issued twice, and a
    call that is rejected is the last call of the run. *)
Theorem flush_issues_each_operation_at_most_once (st : Stream) (w : W) :
  NoDup (ops (calls sdk st w))
  /\ (forall i e, calls sdk st w !! i = Some e -> resolved e = false ->
        S i = length (calls sdk st w)).
Proof.
  run_cases sdk st w.
  all: split; [ apply (bool_decide_unpack _); reflexivity | ].
  all: intros i entry Hi Hrej.
  all: repeat (destruct i as [|i]; cbn in Hi;
               [ injection Hi as <-; first [ discriminate Hrej | reflexivity ] | ]).
  all: try discriminate Hi.
Qed.

End Guards.

(** ** The existence check *)

Lemma findFunction_true (functions : list FunctionConfiguration) (name : option string) :
  findFunction functions name = true <->
  exists fc, fc ∈ functions /\ FunctionName fc = name.
Proof.
  induction functions as [|fc rest IH]; simpl.
  - split; [discriminate | intros (fc & Hin & _); inversion Hin].
  - case_bool_decide as Heq.
    + split; [intros _ | intros _; reflexivity].
      exists fc. split; [apply list_elem_of_here | exact Heq].
    + rewrite IH. split.
      * intros (fc' & Hin & Hfc'). exists fc'.
        split; [apply list_elem_of_further; exact Hin | exact Hfc'].
      * intros (fc' & Hin & Hfc'). apply elem_of_cons in Hin as [-> | Hin];
          [contradiction |].
        exists fc'. split; assumption.
Qed.

(** ** The request objects *)

Lemma with_memory_lookup (p : Params) (m : Obj) (k : string) :
  k ≠ "MemorySize" -> with_memory p m !! k = m !! k.
Proof.
  intros Hk. unfold with_memory.
  destruct (truthy_num (memory p)); [| reflexivity].
  now apply lookup_insert_ne.
Qed.

Lemma with_description_lookup (p : Params) (m : Obj) (k : string) :
  k ≠ "Description" -> with_description p m !! k = m !! k.
Proof.
  intros Hk. unfold with_description.
  destruct (truthy_str (description p)); [| reflexivity].
  now apply lookup_insert_ne.
Qed.

Lemma with_timeout_lookup (p : Params) (m : Obj) (k : string) :
  k ≠ "Timeout" -> with_timeout p m !! k = m !! k.
Proof.
  intros Hk. unfold with_timeout.
  destruct (truthy_num (timeout p)); [| reflexivity].
  now apply lookup_insert_ne.
Qed.

Lemma with_vpc_lookup (p : Params) (m : Obj) (k : string) :
  k ≠ "VpcConfig" -> with_vpc p m !! k = m !! k.
Proof.
  intros Hk. unfold with_vpc.
  destruct (truthy_ids (subnets p) && truthy_ids (securityGroups p)); [| reflexivity].
  now apply lookup_insert_ne.
Qed.

(** The optional settings leave every other field alone. *)
Lemma settings_lookup (p : Params) (m : Obj) (k : string) :
  k ≠ "MemorySize" -> k ≠ "Description" -> k ≠ "Timeout" -> k ≠ "VpcConfig" ->
  with_vpc p (with_timeout p (with_description p (with_memory p m))) !! k = m !! k.
Proof.
  intros. rewrite with_vpc_lookup, with_timeout_lookup, with_description_lookup,
    with_memory_lookup by assumption. reflexivity.
Qed.

(** The [VpcConfig] field is the one [with_vpc] decides. *)
Lemma vpc_lookup (p : Params) (m : Obj) :
  m !! "VpcConfig" = None ->
  with_vpc p m !! "VpcConfig" =
    if truthy_ids (subnets p) && truthy_ids (securityGroups p)
    then Some (VObj (<["SecurityGroupIds" := ids_array (securityGroups p)]>
                       (<["SubnetIds" := ids_array (subnets p)]> ∅)))
    else None.
Proof.
  intros Hm. unfold with_vpc.
  destruct (truthy_ids (subnets p) && truthy_ids (securityGroups p)).
  - apply lookup_insert_eq.
  - exact Hm.
Qed.

Lemma settings_vpc (p : Params) (m : Obj) :
  m !! "VpcConfig" = None ->
  with_vpc p (with_timeout p (with_description p (with_memory p m))) !! "VpcConfig" =
    if truthy_ids (subnets p) && truthy_ids (securityGroups p)
    then Some (VObj (<["SecurityGroupIds" := ids_array (securityGroups p)]>
                       (<["SubnetIds" := ids_array (subnets p)]> ∅)))
    else None.
Proof.
  intros Hm. apply vpc_lookup.
  rewrite with_timeout_lookup, with_description_lookup, with_memory_lookup by done.
  exact Hm.
Qed.

Lemma createFunction_request_inv (p : Params) (req : Obj) :
  createFunction_request p = inr req ->
  exists code,
    req = with_vpc p (with_timeout p (with_description p (with_memory p
            (<["Publish" := of_bool (publish p)]>
               (<["Role" := of_str (role p)]>
                  (<["Runtime" := or_default (runtime p) DEFAULT_runtime]>
                     (<["Handler" := or_default (handler p) DEFAULT_handler]>
                        (<["FunctionName" := of_str (functionName p)]>
                           (<["Code" := VObj code]> ∅)))))))))
    /\ match s3 p with
       | Some loc => code = <["S3Key" := of_str (key loc)]>
                              (<["S3Bucket" := of_str (bucket loc)]> ∅)
       | None => exists f, file p = Some f
                   /\ code = <["ZipFile" := VContents (contents f)]> ∅
       end.
Proof.
  unfold createFunction_request. intros H.
  destruct (s3 p) as [loc|]; [| destruct (file p) as [f|]]; simplify_eq; eauto.
Qed.

Lemma updateFunctionCode_request_inv (p : Params) (req : Obj) :
  updateFunctionCode_request p = inr req ->
  let lamparams : Obj :=
    <["Publish" := of_bool (publish p)]>
      (<["FunctionName" := of_str (functionName p)]> ∅) in
  match s3 p with
  | Some loc => req = <["S3Key" := of_str (key loc)]>
                        (<["S3Bucket" := of_str (bucket loc)]> lamparams)
  | None => exists f, file p = Some f
              /\ req = <["ZipFile" := VContents (contents f)]> lamparams
  end.
Proof.
  unfold updateFunctionCode_request. intros H.
  destruct (s3 p) as [loc|]; [| destruct (file p) as [f|]]; simplify_eq; eauto.
Qed.

(** C10. In the requests of both [createFunction] and
    [updateFunctionConfiguration] the field [VpcConfig] is present exactly
    when [params.subnets] and [params.securityGroups] are both truthy; it
    then holds the two as arrays, a bare string becoming a one-element
    array; when one of the two is absent the field is left out and the
    request is built all the same. *)
Theorem vpc_config_needs_subnets_and_security_groups (p : Params) (req : Obj) :
  req = updateFunctionConfiguration_request p \/ createFunction_request p = inr req ->
  (is_Some (req !! "VpcConfig") <->
     truthy_ids (subnets p) = true /\ truthy_ids (securityGroups p) = true)
  /\ (forall v, req !! "VpcConfig" = Some v ->
        exists vpc, v = VObj vpc
          /\ (forall s, subnets p = Some (IdString s) ->
                vpc !! "SubnetIds" = Some (VArr [s]))
          /\ (forall l, subnets p = Some (IdArray l) ->
                vpc !! "SubnetIds" = Some (VArr l))
          /\ (forall s, securityGroups p = Some (IdString s) ->
                vpc !! "SecurityGroupIds" = Some (VArr [s]))
          /\ (forall l, securityGroups p = Some (IdArray l) ->
                vpc !! "SecurityGroupIds" = Some (VArr l)))
  /\ (subnets p = None \/ securityGroups p = None -> req !! "VpcConfig" = None).
Proof.
  intros Hreq.
  assert (Hvpc : req !! "VpcConfig" =
            if truthy_ids (subnets p) && truthy_ids (securityGroups p)
            then Some (VObj (<["SecurityGroupIds" := ids_array (securityGroups p)]>
                               (<["SubnetIds" := ids_array (subnets p)]> ∅)))
            else None).
  { destruct Hreq as [-> | Hreq].
    - unfold updateFunctionConfiguration_request. now apply settings_vpc.
    - apply createFunction_request_inv in Hreq as (code & -> & _).
      now apply settings_vpc. }
  rewrite Hvpc. clear Hvpc Hreq.
  destruct (truthy_ids (subnets p)) eqn:Hs, (truthy_ids (securityGroups p)) eqn:Hg;
    cbn [andb].
  - split; [| split].
    + split; [auto | intros _; eexists; reflexivity].
    + intros v [= <-]. eexists. split; [reflexivity |].
      repeat split; intros x Hx; rewrite Hx; reflexivity.
    + intros [H | H]; rewrite H in *; discriminate.
  - split; [| split]; [ | discriminate | reflexivity].
    split; [intros [? ?]; discriminate | intros [_ ?]; discriminate].
  - split; [| split]; [ | discriminate | reflexivity].
    split; [intros [? ?]; discriminate | intros [? _]; discriminate].
  - split; [| split]; [ | discriminate | reflexivity].
    split; [intros [? ?]; discriminate | intros [? _]; discriminate].
Qed.

(** Reading the fields of the requests a run has logged. *)
Ltac open_requests :=
  repeat match goal with
  | H : updateFunctionCode_request _ = inr _ |- _ =>
      apply updateFunctionCode_request_inv in H; cbn zeta in H
  | H : createFunction_request _ = inr _ |- _ =>
      apply createFunction_request_inv in H as (? & -> & H)
  | H : match s3 ?p with _ => _ end, Hs : s3 ?p = _ |- _ => rewrite Hs in H
  | H : exists f, file _ = Some f /\ _ |- _ => destruct H as (? & ? & ->)
  end; simplify_eq.

Ltac lookup_fields :=
  unfold s3params, updateFunctionConfiguration_request, waitFor_request,
    getAlias_request, alias_request;
  repeat first
    [ rewrite settings_lookup by done
    | rewrite lookup_insert_eq
    | rewrite lookup_insert_ne by done
    | rewrite lookup_empty ].

Lemma publish_requests_version (e : Entry) (req : Obj) (pub : option bool) :
  req !! "Publish" = (if sends_code e then Some (of_bool pub) else None) ->
  req !! "Publish" = (if sends_code e then Some (of_bool pub) else None)
  /\ (req !! "Publish" = Some (VBool true) <-> sends_code e = true /\ pub = Some true).
Proof.
  intros H. split; [exact H |]. revert H.
  intros ->. destruct (sends_code e), pub as [[]|]; cbn; split;
    first [ intros [? ?]; congruence | intros ?; split; congruence | auto ].
Qed.

Section Requests.
Context {W : Type} (sdk : SDK W).

(** C5. In a run of [flush] the requests of [createFunction] and
    [updateFunctionCode] carry [Publish] with the value of
    [params.publish], and no other request carries a [Publish] field, the
    one of [updateFunctionConfiguration] included; so a request asks for
    a new version exactly when it is one of those two and
    [params.publish] is [true]. *)
Theorem publish_is_sent_with_the_code (st : Stream) (w : W) :
  Forall (fun e =>
    exists req, request e = Some req
      /\ req !! "Publish" =
           (if sends_code e then Some (of_bool (publish (stream_params st))) else None)
      /\ (req !! "Publish" = Some (VBool true) <->
            sends_code e = true /\ publish (stream_params st) = Some true))
    (calls sdk st w).
Proof.
  run_cases sdk st w.
  all: open_requests.
  all: repeat apply Forall_cons_2; try apply Forall_nil_2.
  all: eexists; split; [reflexivity |].
  all: apply publish_requests_version.
  all: cbn; lookup_fields; reflexivity.
Qed.

End Requests.

(** The entries of a logged run, one at a time. *)
Ltac unfold_entries :=
  cbv [put_entry list_entry code_entry wait_entry config_entry create_entry
       getAlias_entry createAlias_entry updateAlias_entry entry outcome_map] in *.

Ltac entries H :=
  repeat match type of H with
  | _ ∈ [] => inversion H
  | _ ∈ _ :: _ => apply elem_of_cons in H; destruct H as [H | H]
  end.

Ltac code_field := unfold code_of, request; cbn; lookup_fields; cbn; try reflexivity.

Section Script.
Context {W : Type} (sdk : SDK W).

(** C4, amended. In a run of [flush] with [params.s3] present and a
    buffered file whose path ends in '.zip', [putObject] is the first call
    and is issued once, with the bucket and key of [params.s3] and the
    contents of the file as body, and the requests of [createFunction] and
    [updateFunctionCode] name the S3 bucket and key and have no [ZipFile]
    field.  In a run without [params.s3] no S3 call is issued and those
    requests carry the contents of the file as [ZipFile]. *)
Theorem code_goes_through_s3_or_inline (st : Stream) (w : W) :
  (forall loc f,
     s3 (stream_params st) = Some loc ->
     file (stream_params st) = Some f -> ends_in_zip (path f) ->
     via_s3 loc f (calls sdk st w))
  /\ (s3 (stream_params st) = None -> inline (stream_params st) (calls sdk st w)).
Proof.
  run_cases sdk st w; open_requests.
  all: split;
    [ intros loc0 f0 Hs3 Hf0 Hzip0; simplify_eq; try contradiction
    | intros Hs3; simplify_eq ].
  all: try (eexists _, _; split; [reflexivity |];
            split; [reflexivity |];
            split; [eexists; split; [reflexivity |];
                    cbn; lookup_fields; repeat split; reflexivity |];
            split; [reflexivity |]).
  all: try (split; [reflexivity |]).
  all: repeat apply Forall_cons_2; try apply Forall_nil_2.
  all: intros Hsends; try discriminate Hsends.
  all: repeat eexists; first [ eassumption | code_field ].
Qed.

(** C1, amended. [hasLambdaFunction] resolves with [true] exactly when an
    entry of the [listFunctions] response has the target name.  When the
    check of a run of [flush] resolves with [true] the run calls
    [updateFunctionCode] and never [createFunction], it calls [waitFor]
    exactly when [updateFunctionCode] resolved and
    [updateFunctionConfiguration] exactly when the wait resolved; when the
    check resolves with [false] the run calls [createFunction] and neither
    update call. *)
Theorem flush_creates_or_updates :
  (forall name c b c',
     hasLambdaFunction sdk name c = (Resolved b, c') ->
     exists res,
       trace c' = (trace c ++ [list_entry (Resolved res)])%list
       /\ (b = true <-> exists fc, fc ∈ Functions res /\ FunctionName fc = name))
  /\ (forall st w, dispatches (stream_params st) (calls sdk st w)).
Proof.
  split.
  - intros name c b c'. unfold hasLambdaFunction, then_, issue, resolve.
    destruct (lambda_listFunctions W sdk ∅ (world c)) as [[res | e] w']; [| discriminate].
    intros [= <- <-]. exists res. split; [reflexivity |]. apply findFunction_true.
  - intros st w. run_cases sdk st w.
    all: intros response Hin; entries Hin; unfold_entries; simplify_eq.
    all: match goal with
         | H : _ = findFunction _ _ |- _ => rewrite <- H
         end.
    all: repeat split; reflexivity.
Qed.

(** C2. In a run of [flush] whose existence check found the function, the
    calls follow the update script: the S3 upload when [params.s3] is
    given, [listFunctions], [updateFunctionCode], [waitFor],
    [updateFunctionConfiguration], then [getAlias] and the alias call when
    [params.alias] is given.  The calls issued are an initial part of the
    script, a call is issued only when the call before it has resolved,
    and when every call resolves the whole script is issued. *)
Theorem update_steps_run_in_order (st : Stream) (w : W) (res : ListFunctionsResponse) :
  list_entry (Resolved res) ∈ calls sdk st w ->
  findFunction (Functions res) (functionName (stream_params st)) = true ->
  exists upsert,
    (upsert = OpCreateAlias \/ upsert = OpUpdateAlias)
    /\ ops (calls sdk st w) `prefix_of` update_script (stream_params st) upsert
    /\ (forall i e e', calls sdk st w !! i = Some e -> calls sdk st w !! S i = Some e' ->
          resolved e = true)
    /\ (forallb resolved (calls sdk st w) = true ->
          ops (calls sdk st w) = update_script (stream_params st) upsert).
Proof.
  run_cases sdk st w.
  all: intros Hin Hfound; entries Hin; unfold_entries; simplify_eq.
  all: try congruence.
  all: unfold update_script;
       repeat match goal with
       | H : s3 _ = _ |- _ => rewrite H
       | H : truthy_str (alias _) = _ |- _ => rewrite H
       end; cbn.
  all: first
    [ exists OpCreateAlias; split; [auto |]; split; [eexists; reflexivity |];
      split; [| first [discriminate | reflexivity]]
    | exists OpUpdateAlias; split; [auto |]; split; [eexists; reflexivity |];
      split; [| first [discriminate | reflexivity]] ].
  all: intros i entry entry' Hi Hi'.
  all: repeat (destruct i as [|i]; cbn in Hi, Hi';
               [ first [ discriminate Hi' | injection Hi as <-; reflexivity ] | ]).
  all: discriminate Hi.
Qed.

End Script.

(** ** The arguments of [main] *)

Lemma main_accepted (p : Params) (o : Options) :
  if accepted p o
  then exists plugin, main (Some p) (Some o) = inr plugin
         /\ stream_params (plugin_stream plugin) = p
  else thrown (main (Some p) (Some o)).
Proof.
  unfold accepted, s3_complete, thrown, main.
  destruct (truthy_str (functionName p)); cbn; [| eexists; reflexivity].
  destruct (truthy_str (role p)); cbn; [| eexists; reflexivity].
  destruct (truthy_str (region o)); cbn; [| eexists; reflexivity].
  destruct (truthy_str (profile o)); cbn; [| eexists; reflexivity].
  destruct (s3 p) as [loc|].
  - destruct (truthy_str (bucket loc)); cbn; [| eexists; reflexivity].
    destruct (truthy_str (key loc)); cbn; [| eexists; reflexivity].
    destruct (truthy_str (alias p)), (truthy_bool (publish p)); cbn;
      first [ eexists; split; reflexivity | eexists; reflexivity ].
  - destruct (truthy_str (alias p)), (truthy_bool (publish p)); cbn;
      first [ eexists; split; reflexivity | eexists; reflexivity ].
Qed.

Lemma refused_accepted (p : Params) (o : Options) :
  refused (Some p) (Some o) <-> accepted p o = false.
Proof.
  unfold refused, accepted, s3_complete.
  destruct (truthy_str (functionName p)); cbn; [| split; auto].
  destruct (truthy_str (role p)); cbn; [| split; auto].
  destruct (truthy_str (region o)); cbn; [| split; auto].
  destruct (truthy_str (profile o)); cbn; [| split; auto].
  destruct (s3 p) as [loc|].
  - destruct (truthy_str (bucket loc)) eqn:Hb; cbn.
    2: { split; [reflexivity | intros _].
         do 4 right. left. exists loc. auto. }
    destruct (truthy_str (key loc)) eqn:Hk; cbn.
    2: { split; [reflexivity | intros _].
         do 4 right. left. exists loc. auto. }
    destruct (truthy_str (alias p)), (truthy_bool (publish p)); cbn.
    all: split; try reflexivity; try discriminate.
    all: try (intros _; do 5 right; split; reflexivity).
    all: intros [H | [H | [H | [H | [(loc' & [= <-] & [H | H]) | [H1 H2]]]]]];
      congruence.
  - destruct (truthy_str (alias p)), (truthy_bool (publish p)); cbn.
    all: split; try reflexivity; try discriminate.
    all: try (intros _; do 5 right; split; reflexivity).
    all: intros [H | [H | [H | [H | [(loc' & [=] & _) | [H1 H2]]]]]];
      congruence.
Qed.

(** C8, amended. [main] throws exactly when [params] or [options] is
    absent, or one of [params.functionName], [params.role],
    [options.region], [options.profile] is falsy (absent or the empty
    string), or [params.s3] is present with a falsy bucket or key, or
    [params.alias] is truthy while [params.publish] is falsy; otherwise it
    returns the stream over [params]. *)
Theorem main_throws_when_refused (params : option Params) (options : option Options) :
  (thrown (main params options) <-> refused params options)
  /\ (~ refused params options ->
        exists p plugin, params = Some p
          /\ main params options = inr plugin
          /\ stream_params (plugin_stream plugin) = p).
Proof.
  destruct params as [p|].
  2: { split; [split; [intros _; exact I | intros _; eexists; reflexivity] |].
       intros H. destruct H. exact I. }
  destruct options as [o|].
  2: { split; [| intros H; destruct H; exact I].
       split; [intros _; exact I | intros _]. unfold thrown, main.
       destruct (truthy_str (functionName p)), (truthy_str (role p)); cbn;
         eexists; reflexivity. }
  pose proof (main_accepted p o) as Hmain.
  pose proof (refused_accepted p o) as Href.
  destruct (accepted p o).
  - destruct Hmain as (plugin & Hplugin & Hparams). split.
    + split; [| intros H; apply Href in H; discriminate H].
      intros [e He]. rewrite Hplugin in He. discriminate He.
    + intros _. exists p, plugin. auto.
  - split.
    + split; [intros _; apply Href; reflexivity | intros _; exact Hmain].
    + intros H. destruct H. apply Href. reflexivity.
Qed.

(** ** Concrete runs *)

Example run_update_with_alias :
  ops (calls (scripted deployed_account) (buffered (with_alias (with_s3 basic_params)) package_zip) 0)
  = [OpPutObject; OpListFunctions; OpUpdateFunctionCode; OpWaitFor;
     OpUpdateFunctionConfiguration; OpGetAlias; OpCreateAlias].
Proof. reflexivity. Qed.

Example run_create :
  ops (calls (scripted empty_account) (buffered basic_params package_zip) 0)
  = [OpListFunctions; OpCreateFunction].
Proof. reflexivity. Qed.

(** C1, as stated, fails on an account in which the function exists and
    its code cannot be updated: the check finds the function,
    [updateFunctionCode] is called and rejects, and
    [updateFunctionConfiguration] is never called. *)
Lemma update_configuration_skipped_after_rejection :
  ops (calls (scripted locked_account) (buffered basic_params package_zip) 0)
    = [OpListFunctions; OpUpdateFunctionCode]
  /\ ~ dispatches_as_stated (stream_params (buffered basic_params package_zip))
         (calls (scripted locked_account) (buffered basic_params package_zip) 0).
Proof.
  split; [reflexivity |].
  intros H. specialize (H {| Functions := [hello] |}).
  destruct H as (_ & Hconfig & _); [apply list_elem_of_here |].
  discriminate Hconfig.
Qed.

(** C3. The alias of [params.alias] does not exist, which the vendor
    reports by rejecting [getAlias]: the function is created, [getAlias]
    is consulted and rejected, and the run ends there.  [createAlias] is
    never called, the callback receives the error of the lookup, and the
    alias handling the claim describes has not taken place. *)
Theorem missing_alias_is_not_created :
  truthy_str (alias (with_alias basic_params)) = true
  /\ ops (calls (scripted no_alias_account) (buffered (with_alias basic_params) package_zip) 0)
       = [OpListFunctions; OpCreateFunction; OpGetAlias]
  /\ (exists g,
        calls (scripted no_alias_account) (buffered (with_alias basic_params) package_zip) 0
          !! 2 = Some g
        /\ settled g = Rejected {| message := "ResourceNotFoundException" |})
  /\ called OpCreateAlias
       (calls (scripted no_alias_account) (buffered (with_alias basic_params) package_zip) 0)
     = false
  /\ callback (flush (scripted no_alias_account)
                 (buffered (with_alias basic_params) package_zip) (fresh 0))
     = Called (Some (plugin_error "ResourceNotFoundException"))
  /\ ~ upserts_alias_as_stated (stream_params (buffered (with_alias basic_params) package_zip))
         (calls (scripted no_alias_account) (buffered (with_alias basic_params) package_zip) 0).
Proof.
  split; [reflexivity |]. split; [reflexivity |].
  split; [eexists; split; reflexivity |].
  split; [reflexivity |]. split; [reflexivity |].
  intros H.
  edestruct (H 1) as (g & a & _ & _ & Ha & _);
    [reflexivity | split; [left; reflexivity | reflexivity] |].
  discriminate Ha.
Qed.

(** C4, as stated, fails on a buffered file that is not a zip: with
    [params.s3] present the run issues no call at all. *)
Lemma no_upload_of_a_file_that_is_not_a_zip :
  s3 (stream_params (buffered (with_s3 basic_params) index_js))
    = Some {| bucket := Some "artifacts"; key := Some "package.zip" |}
  /\ file (stream_params (buffered (with_s3 basic_params) index_js)) = Some index_js
  /\ calls (scripted empty_account) (buffered (with_s3 basic_params) index_js) 0 = []
  /\ ~ via_s3 {| bucket := Some "artifacts"; key := Some "package.zip" |} index_js
         (calls (scripted empty_account) (buffered (with_s3 basic_params) index_js) 0).
Proof.
  repeat (split; [reflexivity |]).
  intros (up & rest & Heq & _). discriminate Heq.
Qed.

(** C8, as stated, fails on an empty function name: the property is there,
    none of the listed conditions holds, and [main] throws. *)
Lemma main_throws_on_empty_function_name :
  main (Some unnamed_params) (Some basic_options)
    = inl (inr (plugin_error "No Lambda function name provided"))
  /\ thrown (main (Some unnamed_params) (Some basic_options))
  /\ ~ refused_as_stated (Some unnamed_params) (Some basic_options).
Proof.
  split; [reflexivity |]. split; [eexists; reflexivity |].
  intros [H | [H | [H | [H | [(loc & H & _) | [H _]]]]]]; discriminate H.
Qed.

(** C9. A deploy step is rejected with an error whose message is empty:
    [listFunctions] is the one call of the run, nothing is pushed, and the
    callback is never called, because building the error to hand to it
    throws.  The callback has not received an error that carries the
    message of the failing step. *)
Theorem callback_is_lost_on_an_empty_message :
  calls silent_account (buffered basic_params package_zip) 0
    = [list_entry (Rejected {| message := "" |})]
  /\ pushed (stream (flush silent_account (buffered basic_params package_zip) (fresh 0)))
     = []
  /\ callback (flush silent_account (buffered basic_params package_zip) (fresh 0))
     = Uncalled missing_message
  /\ ~ reports_as_stated
         (calls silent_account (buffered basic_params package_zip) 0)
         (callback (flush silent_account (buffered basic_params package_zip) (fresh 0))).
Proof.
  split; [reflexivity |]. split; [reflexivity |]. split; [reflexivity |].
  intros H.
  destruct (H (list_entry (Rejected {| message := "" |})) {| message := "" |})
    as (pe & Hcb & _); [apply list_elem_of_here | reflexivity |].
  discriminate Hcb.
Qed.

(** ** The theorems at work on concrete runs *)

Lemma package_zip_ends_in_zip : ends_in_zip (path package_zip).
Proof. exists "dist/package". reflexivity. Defined.

Lemma index_js_is_not_a_zip : ~ ends_in_zip (path index_js).
Proof. intros H. apply slice_zip in H. discriminate H. Defined.

Lemma flush_creates_or_updates_witness :
  list_entry (Resolved {| Functions := [other; hello] |})
    ∈ calls (scripted deployed_account) (buffered basic_params package_zip) 0
  /\ dispatches (stream_params (buffered basic_params package_zip))
       (calls (scripted deployed_account) (buffered basic_params package_zip) 0)
  /\ list_entry (Resolved {| Functions := [] |})
       ∈ calls (scripted empty_account) (buffered basic_params package_zip) 0
  /\ dispatches (stream_params (buffered basic_params package_zip))
       (calls (scripted empty_account) (buffered basic_params package_zip) 0).
Proof.
  split; [apply list_elem_of_here |].
  split; [apply (proj2 (flush_creates_or_updates (scripted deployed_account))) |].
  split; [apply list_elem_of_here |].
  apply (proj2 (flush_creates_or_updates (scripted empty_account))).
Defined.

Lemma update_steps_run_in_order_witness :
  exists upsert,
    (upsert = OpCreateAlias \/ upsert = OpUpdateAlias)
    /\ ops (calls (scripted aliased_account)
              (buffered (with_alias (with_s3 basic_params)) package_zip) 0)
         `prefix_of`
         update_script (stream_params (buffered (with_alias (with_s3 basic_params))
                                         package_zip)) upsert
    /\ (forall i e e',
          calls (scripted aliased_account)
            (buffered (with_alias (with_s3 basic_params)) package_zip) 0 !! i = Some e ->
          calls (scripted aliased_account)
            (buffered (with_alias (with_s3 basic_params)) package_zip) 0 !! S i = Some e' ->
          resolved e = true)
    /\ (forallb resolved
          (calls (scripted aliased_account)
             (buffered (with_alias (with_s3 basic_params)) package_zip) 0) = true ->
        ops (calls (scripted aliased_account)
               (buffered (with_alias (with_s3 basic_params)) package_zip) 0)
        = update_script (stream_params (buffered (with_alias (with_s3 basic_params))
                                          package_zip)) upsert).
Proof.
  apply (update_steps_run_in_order (scripted aliased_account)
           (buffered (with_alias (with_s3 basic_params)) package_zip) 0
           {| Functions := [hello] |}).
  - apply list_elem_of_further, list_elem_of_here.
  - reflexivity.
Defined.

Lemma code_goes_through_s3_or_inline_witness :
  via_s3 {| bucket := Some "artifacts"; key := Some "package.zip" |} package_zip
    (calls (scripted deployed_account) (buffered (with_s3 basic_params) package_zip) 0)
  /\ inline (stream_params (buffered basic_params package_zip))
       (calls (scripted deployed_account) (buffered basic_params package_zip) 0).
Proof.
  split.
  - apply (proj1 (code_goes_through_s3_or_inline (scripted deployed_account)
                    (buffered (with_s3 basic_params) package_zip) 0));
      [reflexivity | reflexivity | exact package_zip_ends_in_zip].
  - apply (proj2 (code_goes_through_s3_or_inline (scripted deployed_account)
                    (buffered basic_params package_zip) 0)).
    reflexivity.
Defined.

Lemma flush_refuses_missing_or_non_zip_witness :
  (callback (flush (scripted deployed_account) (stream_of basic_params) (fresh 0))
     = Called (Some (plugin_error "No code provided"))
   /\ cloud (flush (scripted deployed_account) (stream_of basic_params) (fresh 0)) = fresh 0
   /\ pushed (stream (flush (scripted deployed_account) (stream_of basic_params) (fresh 0)))
        = [])
  /\ (callback (flush (scripted deployed_account) (buffered basic_params index_js) (fresh 0))
        = Called (Some (plugin_error "Given file is not a zip"))
      /\ cloud (flush (scripted deployed_account) (buffered basic_params index_js) (fresh 0))
           = fresh 0
      /\ pushed (stream (flush (scripted deployed_account) (buffered basic_params index_js)
                           (fresh 0))) = []).
Proof.
  split.
  - apply (proj1 (flush_refuses_missing_or_non_zip (scripted deployed_account)
                    (stream_of basic_params) (fresh 0))).
    reflexivity.
  - apply (proj2 (flush_refuses_missing_or_non_zip (scripted deployed_account)
                    (buffered basic_params index_js) (fresh 0)) index_js);
      [reflexivity | exact index_js_is_not_a_zip].
Defined.

Lemma vpc_config_needs_subnets_and_security_groups_witness :
  updateFunctionConfiguration_request vpc_params !! "VpcConfig"
    = Some (VObj (<["SecurityGroupIds" := VArr ["sg-1"; "sg-2"]]>
                    (<["SubnetIds" := VArr ["subnet-1"]]> ∅)))
  /\ (is_Some (updateFunctionConfiguration_request vpc_params !! "VpcConfig") <->
        truthy_ids (subnets vpc_params) = true
        /\ truthy_ids (securityGroups vpc_params) = true).
Proof.
  split; [reflexivity |].
  apply (vpc_config_needs_subnets_and_security_groups vpc_params
           (updateFunctionConfiguration_request vpc_params) (or_introl eq_refl)).
Defined.

(** * More of the plugin *)

(** ** The files that flow through *)

(** X1. The files make the stream fail exactly when one of them is a
    stream; the exception is then 'Stream content is not supported'. *)
Theorem stream_files_are_refused (files : list File) (st : Stream) :
  (thrown (transform_all files st) <-> exists f, f ∈ files /\ isStream f = true)
  /\ (forall e, transform_all files st = inl e ->
        e = inr (plugin_error "Stream content is not supported")).
Proof.
  revert st. induction files as [|f files IH]; intros st; cbn.
  - split; [| discriminate]. split.
    + intros [e He]. discriminate He.
    + intros (f & Hin & _). inversion Hin.
  - unfold transform. destruct (isNull f) eqn:Hnull.
    + destruct (IH st) as [Hiff Hmsg]. split; [| exact Hmsg].
      rewrite Hiff. split.
      * intros (g & Hin & Hg). exists g. split; [now right | exact Hg].
      * intros (g & Hin & Hg). apply elem_of_cons in Hin as [-> | Hin].
        -- unfold isNull, isStream in *. destruct (contents f); discriminate.
        -- exists g. auto.
    + destruct (isStream f) eqn:Hstream.
      * split; [| now intros e [= <-]]. split.
        -- intros _. exists f. split; [now left | exact Hstream].
        -- intros _. eexists. reflexivity.
      * match goal with |- context [transform_all files ?s] =>
          destruct (IH s) as [Hiff Hmsg] end.
        split; [| exact Hmsg]. rewrite Hiff. split.
        -- intros (g & Hin & Hg). exists g. split; [now right | exact Hg].
        -- intros (g & Hin & Hg). apply elem_of_cons in Hin as [-> | Hin];
             [congruence |]. exists g. auto.
Qed.

Lemma last_buffer_cons (f : File) (files : list File) :
  last_buffer (f :: files) =
    match last_buffer files with
    | Some g => Some g
    | None => if isBuffer f then Some f else None
    end.
Proof.
  unfold last_buffer. cbn. destruct (isBuffer f);
    [| destruct (last (List.filter isBuffer files)); reflexivity].
  destruct (List.filter isBuffer files) as [|g gs]; [reflexivity |].
  rewrite last_cons. destruct (last (g :: gs)); reflexivity.
Qed.

Lemma transform_all_keeps (files : list File) (st st' : Stream) :
  transform_all files st = inr st' ->
  stream_params st' =
    match last_buffer files with
    | Some f => set_file (stream_params st) f
    | None => stream_params st
    end
  /\ pushed st' = pushed st
  /\ logged st' = logged st.
Proof.
  revert st. induction files as [|f files IH]; intros st; cbn.
  - intros [= <-]. auto.
  - rewrite last_buffer_cons. unfold transform, isNull, isStream, isBuffer.
    destruct (contents f) eqn:Hc; try discriminate; intros H;
      apply IH in H as (-> & -> & ->); cbn;
      destruct (last_buffer files); auto.
Qed.

(** X2. When the files go through, the stream remembers the last one that
    carries a buffer and forgets the ones before it; nothing else of
    [params] changes, and nothing is pushed or logged. *)
Theorem last_buffer_is_kept (files : list File) (st st' : Stream) :
  transform_all files st = inr st' ->
  file (stream_params st') =
    match last_buffer files with
    | Some f => Some f
    | None => file (stream_params st)
    end
  /\ (forall f, set_file (stream_params st') f = set_file (stream_params st) f)
  /\ pushed st' = pushed st
  /\ logged st' = logged st.
Proof.
  intros H. apply transform_all_keeps in H as (-> & -> & ->).
  destruct (last_buffer files); repeat split; reflexivity.
Qed.

(** ** More on the runs of [flush] *)

Section MoreRuns.
Context {W : Type} (sdk : SDK W).

(** X3. A run of [flush] issues vendor calls exactly when a file whose path
    ends in '.zip' is buffered; the first call is then [putObject] when
    [params.s3] is present and [listFunctions] otherwise. *)
Theorem flush_deploys_exactly_zips (st : Stream) (w : W) :
  (calls sdk st w <> [] <->
     exists f, file (stream_params st) = Some f /\ ends_in_zip (path f))
  /\ (forall e, head (calls sdk st w) = Some e ->
        op e = match s3 (stream_params st) with
               | Some _ => OpPutObject
               | None => OpListFunctions
               end).
Proof.
  run_cases sdk st w.
  all: split;
    [ split;
      [ intros Hcalls; first [ contradiction | eexists; split; eassumption ]
      | intros (f0 & Hf0 & Hzip0); simplify_eq; first [ contradiction | discriminate ] ]
    | intros e0 He0; cbn in He0; simplify_eq;
      repeat match goal with H : s3 _ = _ |- _ => rewrite H end; reflexivity ].
Qed.

(** X4. In a run of [flush] whose existence check did not find the
    function, the calls follow the create script: the S3 upload when
    [params.s3] is given, [listFunctions], [createFunction], then
    [getAlias] and the alias call when [params.alias] is given.  The calls
    issued are an initial part of the script, a call is issued only when
    the one before it has resolved, the whole script is issued when every
    call resolves, and there is no wait and no update call. *)
Theorem create_steps_run_in_order (st : Stream) (w : W) (res : ListFunctionsResponse) :
  list_entry (Resolved res) ∈ calls sdk st w ->
  findFunction (Functions res) (functionName (stream_params st)) = false ->
  exists upsert,
    (upsert = OpCreateAlias \/ upsert = OpUpdateAlias)
    /\ ops (calls sdk st w) `prefix_of` create_script (stream_params st) upsert
    /\ (forall i e e', calls sdk st w !! i = Some e -> calls sdk st w !! S i = Some e' ->
          resolved e = true)
    /\ (forallb resolved (calls sdk st w) = true ->
          ops (calls sdk st w) = create_script (stream_params st) upsert)
    /\ called OpWaitFor (calls sdk st w) = false
    /\ called OpUpdateFunctionCode (calls sdk st w) = false
    /\ called OpUpdateFunctionConfiguration (calls sdk st w) = false.
Proof.
  run_cases sdk st w.
  all: intros Hin Hfound; entries Hin; unfold_entries; simplify_eq.
  all: try congruence.
  all: unfold create_script;
       repeat match goal with
       | H : s3 _ = _ |- _ => rewrite H
       | H : truthy_str (alias _) = _ |- _ => rewrite H
       end; cbn.
  all: first
    [ exists OpCreateAlias; split; [auto |]; split; [eexists; reflexivity |];
      split; [| split; [first [discriminate | reflexivity] | repeat split; reflexivity]]
    | exists OpUpdateAlias; split; [auto |]; split; [eexists; reflexivity |];
      split; [| split; [first [discriminate | reflexivity] | repeat split; reflexivity]] ].
  all: intros i entry entry' Hi Hi'.
  all: repeat (destruct i as [|i]; cbn in Hi, Hi';
               [ first [ discriminate Hi' | injection Hi as <-; reflexivity ] | ]).
  all: discriminate Hi.
Qed.

(** X5. Whatever the cloud, a run of [flush] ends in one of three ways.
    Either the callback is called without an error, the buffered file is
    the one thing pushed and the success message is logged after the upload
    message; or the callback gets an error of the plugin, whose message is
    not empty, nothing is pushed and only the upload message is logged; or
    the chain was rejected with an error whose message is empty, the
    callback is never called, nothing is pushed and only the upload message
    is logged.  [params] is never touched. *)
Theorem flush_ends_in_one_of_three_ways (st : Stream) (c : Cloud W) :
  stream_params (stream (flush sdk st c)) = stream_params st
  /\ ((callback (flush sdk st c) = Called None
       /\ (exists f, file (stream_params st) = Some f
             /\ pushed (stream (flush sdk st c)) = (pushed st ++ [f])%list)
       /\ logged (stream (flush sdk st c))
            = (logged st ++ [uploading_message (stream_params st);
                             uploaded_message (stream_params st)])%list)
      \/ ((exists msg, msg <> ""
             /\ callback (flush sdk st c) = Called (Some (plugin_error msg)))
          /\ pushed (stream (flush sdk st c)) = pushed st
          /\ logged (stream (flush sdk st c))
               = (logged st ++ [uploading_message (stream_params st)])%list)
      \/ (callback (flush sdk st c) = Uncalled missing_message
          /\ (exists err, fst (deploy sdk (stream_params st) c) = Rejected err
                /\ message err = "")
          /\ pushed (stream (flush sdk st c)) = pushed st
          /\ logged (stream (flush sdk st c))
               = (logged st ++ [uploading_message (stream_params st)])%list)).
Proof.
  unfold flush, uploading_message, uploaded_message.
  destruct (file (stream_params st)) as [f|] eqn:Hf; cbn.
  2: { split; [reflexivity |]. right. left.
       split; [eexists; split; [| reflexivity]; discriminate |]. auto. }
  destruct (negb (slice (path f) (-4) =? ".zip")); cbn.
  { split; [reflexivity |]. right. left.
    split; [eexists; split; [| reflexivity]; discriminate |]. auto. }
  destruct (deploy sdk (stream_params st) c) as [[[] | e] c']; cbn.
  - split; [reflexivity |]. left. rewrite Hf. cbn.
    split; [reflexivity |]. split; [eauto |].
    rewrite <- app_assoc. reflexivity.
  - split; [reflexivity |]. right.
    destruct (cb_gulpError_cases (message e)) as [[Hmsg ->] | [Hmsg ->]].
    + left. split; [eauto |]. auto.
    + right. split; [reflexivity |]. split; [eauto |]. auto.
Qed.

(** X16. In a run of [flush] the buffered file is pushed downstream once,
    and the callback called without an error, when the deploy steps have
    been issued and every one of them resolved.  When a step is rejected
    the file is not pushed; the callback then receives the error of the
    plugin that carries the message of that step's error when that message
    is not empty, and is never called when it is empty. *)
Theorem file_is_pushed_on_success (st : Stream) (w : W) :
  pushes_on_success st (calls sdk st w)
    (callback (flush sdk st (fresh w)))
    (pushed (stream (flush sdk st (fresh w)))).
Proof.
  run_cases sdk st w.
  all: split;
    [ intros Hissued Hall;
      first [ contradiction | discriminate Hall | eexists; repeat split; eassumption ]
    | ].
  all: intros entry err Hin Hrej; entries Hin; subst entry; cbn in Hrej;
       simplify_eq.
  all: split; [reflexivity |].
  all: match goal with
       | |- context [cb_gulpError ?m] =>
           destruct (cb_gulpError_cases m) as [[Hmsg ->] | [Hmsg ->]]
       end.
  all: split; intros Hmsg'; first [reflexivity | contradiction].
Qed.

(** X17. In a run of [flush] with [params.alias] set, the call that
    completes the create-or-update step is followed by [getAlias] for that
    alias.  When [getAlias] resolves with no alias [createAlias] follows,
    when it resolves with an alias [updateAlias] follows, in both cases for
    the version of the value the create-or-update step resolved with; a
    rejected [getAlias] is the last call of the run. *)
Theorem alias_is_upserted (st : Stream) (w : W) :
  truthy_str (alias (stream_params st)) = true ->
  upserts_alias (stream_params st) (calls sdk st w).
Proof.
  run_cases sdk st w.
  all: intros Halias i u upserted Hi [Hop Hset].
  all: repeat (destruct i as [|i]; cbn in Hi;
               [ injection Hi as <-; cbn in Hop, Hset;
                 first [ discriminate Hset
                       | destruct Hop; discriminate
                       | injection Hset as -> ] | ]).
  all: try discriminate Hi.
  all: try congruence.
  all: eexists; split; [reflexivity |]; split; [reflexivity |].
  all: split; [eexists; split; [reflexivity |]; cbn; lookup_fields; split; reflexivity |].
  all: cbn; try reflexivity.
  all: eexists; split; [reflexivity |]; split; [reflexivity |].
  all: eexists; split; [reflexivity |]; cbn; lookup_fields; repeat split; reflexivity.
Qed.

(** X6. On the update path the alias follows the configuration, not the
    code: in a run in which [updateFunctionCode] was called, every alias
    call asks for the version in the response of
    [updateFunctionConfiguration], whatever version [updateFunctionCode]
    resolved with. *)
Theorem alias_follows_the_configuration (st : Stream) (w : W) (a : Entry) :
  called OpUpdateFunctionCode (calls sdk st w) = true ->
  a ∈ calls sdk st w -> op a = OpCreateAlias \/ op a = OpUpdateAlias ->
  exists u fc, u ∈ calls sdk st w
    /\ op u = OpUpdateFunctionConfiguration
    /\ settled u = Resolved (RFunction fc)
    /\ points_at (stream_params st) fc a.
Proof.
  run_cases sdk st w.
  all: intros Hcode Hin Hop; try discriminate Hcode.
  all: entries Hin; subst a; cbn in Hop; destruct Hop as [Hop | Hop];
       try discriminate Hop.
  all: eexists (config_entry _ (Resolved _)), _.
  all: split; [cbn; repeat first [apply list_elem_of_here | apply list_elem_of_further] |].
  all: split; [reflexivity |]; split; [reflexivity |].
  all: eexists; split; [reflexivity |]; cbn; lookup_fields; repeat split; reflexivity.
Qed.

(** X7. A step that has no code to send rejects without a call:
    [s3upload] when [params.s3] or the file is missing, [updateFunctionCode]
    and [createFunction] when both are missing.  With [params.s3] present
    the two Lambda steps do issue their call, file or no file. *)
Theorem steps_without_code_issue_nothing (p : Params) (c : Cloud W) :
  (s3 p = None \/ file p = None -> exists e, s3upload W sdk p c = (Rejected e, c))
  /\ (s3 p = None -> file p = None ->
        (exists e, updateFunctionCode W sdk p c = (Rejected e, c))
        /\ (exists e, createFunction W sdk p c = (Rejected e, c)))
  /\ (forall loc, s3 p = Some loc ->
        ops (trace (updateFunctionCode W sdk p c).2)
          = (ops (trace c) ++ [OpUpdateFunctionCode])%list
        /\ ops (trace (createFunction W sdk p c).2)
             = (ops (trace c) ++ [OpCreateFunction])%list).
Proof.
  split; [| split].
  - unfold s3upload, reject. intros [-> | Hfile].
    + eexists. reflexivity.
    + rewrite Hfile. destruct (s3 p); eexists; reflexivity.
  - intros Hs3 Hfile.
    unfold updateFunctionCode, createFunction, updateFunctionCode_request,
      createFunction_request, reject.
    rewrite Hs3, Hfile. split; eexists; reflexivity.
  - intros loc Hs3.
    unfold updateFunctionCode, createFunction, updateFunctionCode_request,
      createFunction_request, issue.
    rewrite Hs3. cbn.
    destruct (lambda_updateFunctionCode W sdk _ (world c)) as [r1 w1].
    destruct (lambda_createFunction W sdk _ (world c)) as [r2 w2].
    cbn. unfold ops. rewrite !map_app. split; reflexivity.
Qed.

End MoreRuns.

(** ** More on the request objects *)

Lemma or_default_names (o : option string) (d : string) :
  d <> "" ->
  exists s, or_default o d = VStr s /\ s <> ""
    /\ (truthy_str o = true -> o = Some s)
    /\ (truthy_str o = false -> s = d).
Proof.
  intros Hd. unfold or_default.
  destruct o as [[|a s]|]; cbn.
  - exists d. repeat split; auto; discriminate.
  - exists (String a s). repeat split; auto; discriminate.
  - exists d. repeat split; auto; discriminate.
Qed.

(** X8. The requests of [createFunction] and [updateFunctionConfiguration]
    always carry a handler and a runtime that are strings and not empty:
    the ones of [params] when these are truthy, 'index.handler' and
    'nodejs14.x' when they are absent or empty. *)
Theorem handler_and_runtime_have_defaults (p : Params) (req : Obj) :
  req = updateFunctionConfiguration_request p \/ createFunction_request p = inr req ->
  (exists h, req !! "Handler" = Some (VStr h) /\ h <> ""
     /\ (truthy_str (handler p) = true -> handler p = Some h)
     /\ (truthy_str (handler p) = false -> h = "index.handler"))
  /\ (exists r, req !! "Runtime" = Some (VStr r) /\ r <> ""
        /\ (truthy_str (runtime p) = true -> runtime p = Some r)
        /\ (truthy_str (runtime p) = false -> r = "nodejs14.x")).
Proof.
  intros Hreq.
  assert (Hh : req !! "Handler" = Some (or_default (handler p) DEFAULT_handler)
               /\ req !! "Runtime" = Some (or_default (runtime p) DEFAULT_runtime)).
  { destruct Hreq as [-> | Hreq].
    - split; lookup_fields; reflexivity.
    - apply createFunction_request_inv in Hreq as (code & -> & _).
      split; lookup_fields; reflexivity. }
  destruct Hh as [-> ->].
  destruct (or_default_names (handler p) DEFAULT_handler) as (h & -> & Hh); [discriminate |].
  destruct (or_default_names (runtime p) DEFAULT_runtime) as (r & -> & Hr); [discriminate |].
  split; [exists h | exists r]; split; auto.
Qed.

(** X9. In both requests a setting that is falsy is left out, zero and the
    empty string included: [MemorySize] and [Timeout] are present exactly
    for a number that is not zero and [Description] exactly for a string
    that is not empty, each with the value of [params]. *)
Theorem falsy_settings_are_left_out (p : Params) (req : Obj) :
  req = updateFunctionConfiguration_request p \/ createFunction_request p = inr req ->
  (forall v, req !! "MemorySize" = Some v <->
     exists n, memory p = Some n /\ n <> 0%Z /\ v = VNum n)
  /\ (forall v, req !! "Timeout" = Some v <->
        exists n, timeout p = Some n /\ n <> 0%Z /\ v = VNum n)
  /\ (forall v, req !! "Description" = Some v <->
        exists s, description p = Some s /\ s <> "" /\ v = VStr s).
Proof.
  intros Hreq.
  assert (H : req !! "MemorySize"
                = (if truthy_num (memory p) then Some (of_num (memory p)) else None)
              /\ req !! "Timeout"
                   = (if truthy_num (timeout p) then Some (of_num (timeout p)) else None)
              /\ req !! "Description"
                   = (if truthy_str (description p)
                      then Some (of_str (description p)) else None)).
  { destruct Hreq as [-> | Hreq];
      [ unfold updateFunctionConfiguration_request
      | apply createFunction_request_inv in Hreq as (code & -> & _) ].
    all: rewrite !with_vpc_lookup by done.
    all: rewrite (with_timeout_lookup _ _ "MemorySize"),
           (with_timeout_lookup _ _ "Description") by done.
    all: rewrite (with_description_lookup _ _ "MemorySize") by done.
    all: unfold with_timeout, with_description, with_memory.
    all: destruct (truthy_num (memory p)), (truthy_num (timeout p)),
           (truthy_str (description p)).
    all: repeat split; lookup_fields; reflexivity. }
  destruct H as (-> & -> & ->).
  split; [| split]; intros v.
  - destruct (memory p) as [n|]; cbn; [destruct (Z.eqb_spec n 0); cbn |].
    + split; [discriminate | intros (m & [= <-] & Hm & _); contradiction].
    + split; [intros [= <-]; eauto | intros (m & [= <-] & _ & ->); reflexivity].
    + split; [discriminate | intros (m & Hm & _); discriminate].
  - destruct (timeout p) as [n|]; cbn; [destruct (Z.eqb_spec n 0); cbn |].
    + split; [discriminate | intros (m & [= <-] & Hm & _); contradiction].
    + split; [intros [= <-]; eauto | intros (m & [= <-] & _ & ->); reflexivity].
    + split; [discriminate | intros (m & Hm & _); discriminate].
  - destruct (description p) as [[|a s]|]; cbn.
    + split; [discriminate | intros (m & [= <-] & Hm & _); contradiction].
    + split; [intros [= <-]; eexists; repeat split; discriminate
             | intros (m & [= <-] & _ & ->); reflexivity].
    + split; [discriminate | intros (m & Hm & _); discriminate].
Qed.

Lemma with_memory_ext (p : Params) (m1 m2 : Obj) (k : string) :
  m1 !! k = m2 !! k -> with_memory p m1 !! k = with_memory p m2 !! k.
Proof.
  intros H. unfold with_memory. destruct (truthy_num (memory p)); [| exact H].
  rewrite !lookup_insert. case_decide; [reflexivity | exact H].
Qed.

Lemma with_description_ext (p : Params) (m1 m2 : Obj) (k : string) :
  m1 !! k = m2 !! k -> with_description p m1 !! k = with_description p m2 !! k.
Proof.
  intros H. unfold with_description. destruct (truthy_str (description p)); [| exact H].
  rewrite !lookup_insert. case_decide; [reflexivity | exact H].
Qed.

Lemma with_timeout_ext (p : Params) (m1 m2 : Obj) (k : string) :
  m1 !! k = m2 !! k -> with_timeout p m1 !! k = with_timeout p m2 !! k.
Proof.
  intros H. unfold with_timeout. destruct (truthy_num (timeout p)); [| exact H].
  rewrite !lookup_insert. case_decide; [reflexivity | exact H].
Qed.

Lemma with_vpc_ext (p : Params) (m1 m2 : Obj) (k : string) :
  m1 !! k = m2 !! k -> with_vpc p m1 !! k = with_vpc p m2 !! k.
Proof.
  intros H. unfold with_vpc.
  destruct (truthy_ids (subnets p) && truthy_ids (securityGroups p)); [| exact H].
  rewrite !lookup_insert. case_decide; [reflexivity | exact H].
Qed.

(** X10. A function is created with the configuration an update would
    give it: the request of [createFunction] and the request of
    [updateFunctionConfiguration] agree on every field but [Code] and
    [Publish], which only the former has. *)
Theorem create_configures_like_update (p : Params) (req : Obj) :
  createFunction_request p = inr req ->
  (forall k, k <> "Code" -> k <> "Publish" ->
     req !! k = updateFunctionConfiguration_request p !! k)
  /\ is_Some (req !! "Code") /\ is_Some (req !! "Publish")
  /\ updateFunctionConfiguration_request p !! "Code" = None
  /\ updateFunctionConfiguration_request p !! "Publish" = None.
Proof.
  intros Hreq. apply createFunction_request_inv in Hreq as (code & -> & _).
  split; [| repeat split; lookup_fields; eauto].
  intros k Hcode Hpublish. unfold updateFunctionConfiguration_request.
  apply with_vpc_ext, with_timeout_ext, with_description_ext, with_memory_ext.
  rewrite !lookup_insert, !lookup_empty.
  repeat case_decide; simplify_eq; reflexivity.
Qed.

(** ** More on the existence check *)

(** X11. The existence check does not depend on the order in which the
    functions are listed, and a listing in two parts finds the function
    when one of the parts does. *)
Theorem findFunction_ignores_order (l1 l2 : list FunctionConfiguration)
    (name : option string) :
  findFunction (l1 ++ l2) name = findFunction l1 name || findFunction l2 name
  /\ (l1 ≡ₚ l2 -> findFunction l1 name = findFunction l2 name).
Proof.
  split.
  - induction l1 as [|fc l1 IH]; cbn; [reflexivity |].
    case_bool_decide; [reflexivity | exact IH].
  - intros Hperm.
    destruct (findFunction l1 name) eqn:H1, (findFunction l2 name) eqn:H2;
      try reflexivity.
    + apply findFunction_true in H1 as (fc & Hin & Hfc).
      rewrite Hperm in Hin.
      assert (findFunction l2 name = true) by (apply findFunction_true; eauto).
      congruence.
    + apply findFunction_true in H2 as (fc & Hin & Hfc).
      rewrite <- Hperm in Hin.
      assert (findFunction l1 name = true) by (apply findFunction_true; eauto).
      congruence.
Qed.

(** ** From [main] to the end of the stream *)

Lemma truthy_str_inv (o : option string) :
  truthy_str o = true -> exists a s, o = Some (String a s).
Proof. destruct o as [[|a s]|]; try discriminate. eauto. Qed.

Lemma main_returns (p : Params) (o : Options) (plugin : Plugin) :
  main (Some p) (Some o) = inr plugin ->
  accepted p o = true /\ plugin_stream plugin = stream_of p.
Proof.
  unfold main, accepted, s3_complete.
  destruct (truthy_str (functionName p)); cbn; [| discriminate].
  destruct (truthy_str (role p)); cbn; [| discriminate].
  destruct (truthy_str (region o)); cbn; [| discriminate].
  destruct (truthy_str (profile o)); cbn; [| discriminate].
  destruct (s3 p) as [loc|].
  - destruct (truthy_str (bucket loc)); cbn; [| discriminate].
    destruct (truthy_str (key loc)); cbn; [| discriminate].
    destruct (truthy_str (alias p)), (truthy_bool (publish p)); cbn;
      try discriminate; intros [= <-]; split; reflexivity.
  - destruct (truthy_str (alias p)), (truthy_bool (publish p)); cbn;
      try discriminate; intros [= <-]; split; reflexivity.
Qed.

(** What the checks of [main] leave true of [params]. *)
Lemma accepted_inv (p : Params) (o : Options) :
  accepted p o = true ->
  truthy_str (functionName p) = true
  /\ truthy_str (role p) = true
  /\ (forall loc, s3 p = Some loc ->
        truthy_str (bucket loc) = true /\ truthy_str (key loc) = true)
  /\ (truthy_str (alias p) = true -> publish p = Some true).
Proof.
  unfold accepted, s3_complete. intros H.
  repeat (apply andb_prop in H as [H ?]).
  repeat split; try assumption.
  - destruct (s3 p); simplify_eq.
    match goal with Hs : _ && _ = true |- _ => apply andb_prop in Hs as [? _] end.
    assumption.
  - destruct (s3 p); simplify_eq.
    match goal with Hs : _ && _ = true |- _ => apply andb_prop in Hs as [_ ?] end.
    assumption.
  - intros Halias.
    match goal with Hn : negb _ = true |- _ => rewrite Halias in Hn; cbn in Hn end.
    destruct (publish p) as [[]|]; cbn in *; try discriminate; reflexivity.
Qed.

Section Pipeline.
Context {W : Type} (sdk : SDK W).

Lemma pipeline_inv (params : option Params) (options : option Options)
    (files : list File) (w : W) (r : FlushResult W) :
  pipeline sdk params options files w = inr r ->
  exists p o st,
    params = Some p /\ options = Some o /\ accepted p o = true
    /\ transform_all files (stream_of p) = inr st
    /\ r = flush sdk st (fresh w)
    /\ accepted (stream_params st) o = true
    /\ pushed st = [] /\ logged st = [].
Proof.
  unfold pipeline. destruct (main params options) as [e | plugin] eqn:Hmain;
    [discriminate |].
  destruct params as [p|]; [| discriminate Hmain].
  destruct options as [o|].
  2: { unfold main in Hmain.
       destruct (truthy_str (functionName p)), (truthy_str (role p)); discriminate. }
  apply main_returns in Hmain as [Hacc ->].
  destruct (transform_all files (stream_of p)) as [e | st] eqn:Hfiles; [discriminate |].
  intros [= <-]. exists p, o, st.
  pose proof (transform_all_keeps _ _ _ Hfiles) as (Hp & Hpushed & Hlogged).
  repeat split; try assumption.
  rewrite Hp. destruct (last_buffer files); exact Hacc.
Qed.

Ltac name_field :=
  unfold names; cbn; lookup_fields;
  match goal with
  | H : ?o = Some (String ?a ?s) |- context [of_str ?o] =>
      rewrite H; eexists; split; [reflexivity | discriminate]
  | |- context [or_default ?o ?d] =>
      let s := fresh "s" in
      let Hs := fresh "Hs" in
      destruct (or_default_names o d) as (s & -> & Hs & _);
      [discriminate | exists s; split; [reflexivity | exact Hs]]
  end.

Lemma accepted_requests_are_named (st : Stream) (o : Options) (w : W) :
  accepted (stream_params st) o = true ->
  Forall well_named (calls sdk st w).
Proof.
  intros Hacc. apply accepted_inv in Hacc as (Hname & Hrole & Hs3 & _).
  apply truthy_str_inv in Hname as (a1 & s1 & Hname).
  apply truthy_str_inv in Hrole as (a2 & s2 & Hrole).
  revert Hs3. run_cases sdk st w.
  all: intros Hs3; open_requests.
  all: repeat match goal with
       | H : s3 _ = Some ?loc |- _ =>
           destruct (Hs3 loc H) as [Hbucket Hkey]; clear Hs3;
           apply truthy_str_inv in Hbucket as (? & ? & Hbucket);
           apply truthy_str_inv in Hkey as (? & ? & Hkey)
       | H : truthy_str (alias _) = true |- _ =>
           apply truthy_str_inv in H as (? & ? & H)
       end.
  all: repeat apply Forall_cons_2; try apply Forall_nil_2.
  all: eexists; split; [reflexivity |]; cbn [op entry put_entry list_entry code_entry
         wait_entry config_entry create_entry getAlias_entry createAlias_entry
         updateAlias_entry].
  all: repeat split; first [ reflexivity | name_field ].
Qed.

(** X12. When [main] has accepted [params] and the files have gone through,
    every request of the run names what it acts on: the bucket and key of
    [putObject], the function name of every Lambda request but
    [listFunctions] (whose request is empty), the role, handler and runtime
    of [createFunction] and [updateFunctionConfiguration], and the alias of
    the alias calls are strings that are not empty. *)
Theorem accepted_runs_name_everything (params : option Params)
    (options : option Options) (files : list File) (w : W) (r : FlushResult W) :
  pipeline sdk params options files w = inr r ->
  Forall well_named (trace (cloud r)).
Proof.
  intros H. apply pipeline_inv in H as (p & o & st & _ & _ & _ & _ & -> & Hacc & _).
  exact (accepted_requests_are_named st o w Hacc).
Qed.

(** X13. When [main] has accepted [params], an alias is only looked up in a
    run that publishes: if [getAlias] is called then [params.publish] is
    [true] and every code request of the run carries [Publish] = true. *)
Theorem alias_runs_publish (params : option Params)
    (options : option Options) (files : list File) (w : W) (r : FlushResult W) :
  pipeline sdk params options files w = inr r ->
  called OpGetAlias (trace (cloud r)) = true ->
  (exists p, params = Some p /\ publish p = Some true)
  /\ Forall (fun e => sends_code e = true ->
       exists req, request e = Some req /\ req !! "Publish" = Some (VBool true))
       (trace (cloud r)).
Proof.
  intros H. apply pipeline_inv in H as (p & o & st & -> & _ & Hp & Hfiles & -> & Hacc & _).
  apply accepted_inv in Hacc as (_ & _ & _ & Hpub).
  apply accepted_inv in Hp as (_ & _ & _ & Hpub0).
  apply transform_all_keeps in Hfiles as (Hparams & _ & _).
  assert (Halias : truthy_str (alias (stream_params st)) = truthy_str (alias p)).
  { rewrite Hparams. destruct (last_buffer files); reflexivity. }
  rewrite <- Halias in Hpub0. clear Hparams Halias.
  change (trace (cloud (flush sdk st (fresh w)))) with (calls sdk st w).
  revert Hpub Hpub0. run_cases sdk st w.
  all: intros Hpub Hpub0 Hcalled; try discriminate Hcalled.
  all: split; [eexists; split; [reflexivity | auto] |].
  all: open_requests.
  all: repeat apply Forall_cons_2; try apply Forall_nil_2.
  all: intros Hsends; try discriminate Hsends.
  all: eexists; split; [reflexivity |].
  all: cbn; lookup_fields; rewrite Hpub by assumption; reflexivity.
Qed.

(** X14. However many files go in, at most one comes out.  When the
    callback is called without an error the stream has pushed one file: the
    last file with a buffer, or the one [params] came with when no file had
    a buffer, and its path ends in '.zip'.  In every other run nothing is
    pushed. *)
Theorem at_most_the_last_file_comes_out (params : option Params)
    (options : option Options) (files : list File) (w : W) (r : FlushResult W) :
  pipeline sdk params options files w = inr r ->
  (callback r = Called None
   /\ exists f, pushed (stream r) = [f] /\ ends_in_zip (path f)
        /\ (last_buffer files = Some f
            \/ (last_buffer files = None
                /\ exists p, params = Some p /\ file p = Some f)))
  \/ (callback r <> Called None /\ pushed (stream r) = []).
Proof.
  intros H. apply pipeline_inv in H as (p & o & st & -> & _ & _ & Hfiles & -> & _ & Hpushed & _).
  apply transform_all_keeps in Hfiles as (Hparams & _ & _).
  pose proof (flush_runs sdk st w) as Hrun. revert Hrun.
  generalize (calls sdk st w), (callback (flush sdk st (fresh w))),
    (pushed (stream (flush sdk st (fresh w)))).
  intros tr cb out Hrun.
  inversion Hrun as [Hf | f Hf Hzip | f tr' Hf Hzip Hdeploy | f tr' e Hf Hzip Hdeploy];
    subst; rewrite Hpushed.
  - right. split; [discriminate | reflexivity].
  - right. split; [discriminate | reflexivity].
  - left. split; [reflexivity |]. exists f. split; [reflexivity |].
    split; [exact Hzip |]. rewrite Hparams in Hf.
    destruct (last_buffer files) as [g|]; cbn in Hf.
    + left. exact Hf.
    + right. split; [reflexivity |]. exists p. auto.
  - right. split; [| reflexivity].
    destruct (cb_gulpError_cases (message e)) as [[_ ->] | [_ ->]]; discriminate.
Qed.

End Pipeline.

(** ** What [main] does not look at *)

(** X15. [main] only looks at the function name, the role, the S3 location,
    the alias and publish: two [params] that agree on these are refused
    with the same error or both accepted, whatever their file, handler,
    runtime, memory, description, timeout, subnets and security groups. *)
Theorem main_ignores_the_settings (p p' : Params) (options : option Options) :
  functionName p = functionName p' -> role p = role p' -> s3 p = s3 p' ->
  alias p = alias p' -> publish p = publish p' ->
  (forall e, main (Some p) options = inl e <-> main (Some p') options = inl e)
  /\ ((exists plugin, main (Some p) options = inr plugin) <->
      (exists plugin, main (Some p') options = inr plugin)).
Proof.
  intros Hname Hrole Hs3 Halias Hpublish. unfold main.
  rewrite <- Hname, <- Hrole, <- Hs3, <- Halias, <- Hpublish.
  destruct (truthy_str (functionName p)); cbn; [| split; split; auto].
  destruct (truthy_str (role p)); cbn; [| split; split; auto].
  destruct options as [o|]; [| split; split; auto].
  destruct (truthy_str (region o)); cbn; [| split; split; auto].
  destruct (truthy_str (profile o)); cbn; [| split; split; auto].
  destruct (s3 p) as [loc|].
  - destruct (truthy_str (bucket loc)); cbn; [| split; split; auto].
    destruct (truthy_str (key loc)); cbn; [| split; split; auto].
    destruct (truthy_str (alias p) && negb (truthy_bool (publish p)));
      split; split; auto; try discriminate; intros _; eexists; reflexivity.
  - destruct (truthy_str (alias p) && negb (truthy_bool (publish p)));
      split; split; auto; try discriminate; intros _; eexists; reflexivity.
Qed.

(** ** These theorems at work on concrete runs *)

Lemma last_buffer_is_kept_witness :
  file (stream_params (buffered basic_params second_zip)) =
    match last_buffer piped with
    | Some f => Some f
    | None => file (stream_params (stream_of basic_params))
    end
  /\ (forall f, set_file (stream_params (buffered basic_params second_zip)) f
                = set_file (stream_params (stream_of basic_params)) f)
  /\ pushed (buffered basic_params second_zip) = pushed (stream_of basic_params)
  /\ logged (buffered basic_params second_zip) = logged (stream_of basic_params).
Proof.
  exact (last_buffer_is_kept piped (stream_of basic_params)
           (buffered basic_params second_zip) eq_refl).
Defined.

Lemma create_steps_run_in_order_witness :
  exists upsert,
    (upsert = OpCreateAlias \/ upsert = OpUpdateAlias)
    /\ ops (calls (scripted empty_account) (buffered (with_alias basic_params) package_zip) 0)
         `prefix_of`
         create_script (stream_params (buffered (with_alias basic_params) package_zip)) upsert
    /\ (forall i e e',
          calls (scripted empty_account)
            (buffered (with_alias basic_params) package_zip) 0 !! i = Some e ->
          calls (scripted empty_account)
            (buffered (with_alias basic_params) package_zip) 0 !! S i = Some e' ->
          resolved e = true)
    /\ (forallb resolved
          (calls (scripted empty_account)
             (buffered (with_alias basic_params) package_zip) 0) = true ->
        ops (calls (scripted empty_account)
               (buffered (with_alias basic_params) package_zip) 0)
        = create_script (stream_params (buffered (with_alias basic_params) package_zip))
            upsert)
    /\ called OpWaitFor
         (calls (scripted empty_account)
            (buffered (with_alias basic_params) package_zip) 0) = false
    /\ called OpUpdateFunctionCode
         (calls (scripted empty_account)
            (buffered (with_alias basic_params) package_zip) 0) = false
    /\ called OpUpdateFunctionConfiguration
         (calls (scripted empty_account)
            (buffered (with_alias basic_params) package_zip) 0) = false.
Proof.
  apply (create_steps_run_in_order (scripted empty_account)
           (buffered (with_alias basic_params) package_zip) 0 {| Functions := [] |}).
  - apply list_elem_of_here.
  - reflexivity.
Defined.

(** The code is published as version 8, and the alias is created for the
    unpublished version the configuration update answered with. *)
Lemma alias_follows_the_configuration_witness :
  code_entry
    (<["ZipFile" := VContents (contents package_zip)]>
       (<["Publish" := VBool true]> (<["FunctionName" := VStr "hello"]> ∅)))
    (Resolved {| FunctionName := Some "hello"; Version := Some "8" |})
    ∈ calls publishing_account (buffered (with_alias basic_params) package_zip) 0
  /\ request
       (createAlias_entry (with_alias basic_params) (VStr "$LATEST")
          (Resolved {| Name := Some "live"; FunctionVersion := Some "$LATEST" |}))
     = Some (<["Name" := VStr "live"]>
               (<["FunctionVersion" := VStr "$LATEST"]>
                  (<["FunctionName" := VStr "hello"]> ∅)))
  /\ exists u fc,
       u ∈ calls publishing_account (buffered (with_alias basic_params) package_zip) 0
       /\ op u = OpUpdateFunctionConfiguration
       /\ settled u = Resolved (RFunction fc)
       /\ points_at (stream_params (buffered (with_alias basic_params) package_zip)) fc
            (createAlias_entry (with_alias basic_params) (VStr "$LATEST")
               (Resolved {| Name := Some "live"; FunctionVersion := Some "$LATEST" |})).
Proof.
  split; [apply list_elem_of_further, list_elem_of_here |].
  split; [reflexivity |].
  apply (alias_follows_the_configuration publishing_account
           (buffered (with_alias basic_params) package_zip) 0).
  - reflexivity.
  - do 5 apply list_elem_of_further. apply list_elem_of_here.
  - left. reflexivity.
Defined.

Lemma handler_and_runtime_have_defaults_witness :
  (exists h, updateFunctionConfiguration_request frugal_params !! "Handler" = Some (VStr h)
     /\ h <> ""
     /\ (truthy_str (handler frugal_params) = true -> handler frugal_params = Some h)
     /\ (truthy_str (handler frugal_params) = false -> h = "index.handler"))
  /\ (exists r, updateFunctionConfiguration_request frugal_params !! "Runtime"
                = Some (VStr r)
        /\ r <> ""
        /\ (truthy_str (runtime frugal_params) = true -> runtime frugal_params = Some r)
        /\ (truthy_str (runtime frugal_params) = false -> r = "nodejs14.x")).
Proof.
  exact (handler_and_runtime_have_defaults frugal_params
           (updateFunctionConfiguration_request frugal_params) (or_introl eq_refl)).
Defined.

Lemma falsy_settings_are_left_out_witness :
  updateFunctionConfiguration_request frugal_params !! "MemorySize" = None
  /\ updateFunctionConfiguration_request frugal_params !! "Description" = None
  /\ (forall v, updateFunctionConfiguration_request frugal_params !! "Timeout" = Some v <->
        exists n, timeout frugal_params = Some n /\ n <> 0%Z /\ v = VNum n).
Proof.
  split; [reflexivity |]. split; [reflexivity |].
  apply (falsy_settings_are_left_out frugal_params
           (updateFunctionConfiguration_request frugal_params) (or_introl eq_refl)).
Defined.

Lemma create_configures_like_update_witness :
  exists req, createFunction_request frugal_params = inr req
    /\ (forall k, k <> "Code" -> k <> "Publish" ->
          req !! k = updateFunctionConfiguration_request frugal_params !! k).
Proof.
  eexists. split; [reflexivity |].
  apply (create_configures_like_update frugal_params _ eq_refl).
Defined.

Lemma accepted_runs_name_everything_witness :
  Forall well_named
    (trace (cloud (flush (scripted aliased_account)
                     (buffered (with_alias (with_s3 basic_params)) second_zip) (fresh 0)))).
Proof.
  exact (accepted_runs_name_everything (scripted aliased_account)
           (Some (with_alias (with_s3 basic_params))) (Some basic_options) piped 0 _ eq_refl).
Defined.

Lemma alias_runs_publish_witness :
  (exists p, Some (with_alias (with_s3 basic_params)) = Some p /\ publish p = Some true)
  /\ Forall (fun e => sends_code e = true ->
       exists req, request e = Some req /\ req !! "Publish" = Some (VBool true))
       (trace (cloud (flush (scripted aliased_account)
                        (buffered (with_alias (with_s3 basic_params)) second_zip)
                        (fresh 0)))).
Proof.
  apply (alias_runs_publish (scripted aliased_account)
           (Some (with_alias (with_s3 basic_params))) (Some basic_options) piped 0 _ eq_refl).
  reflexivity.
Defined.

Lemma at_most_the_last_file_comes_out_witness :
  pushed (stream (flush (scripted deployed_account) (buffered basic_params second_zip)
                    (fresh 0))) = [second_zip]
  /\ ((callback (flush (scripted deployed_account) (buffered basic_params second_zip)
                   (fresh 0)) = Called None
       /\ exists f,
            pushed (stream (flush (scripted deployed_account)
                              (buffered basic_params second_zip) (fresh 0))) = [f]
            /\ ends_in_zip (path f)
            /\ (last_buffer piped = Some f
                \/ (last_buffer piped = None
                    /\ exists p, Some basic_params = Some p /\ file p = Some f)))
      \/ (callback (flush (scripted deployed_account)
                      (buffered basic_params second_zip) (fresh 0)) <> Called None
          /\ pushed (stream (flush (scripted deployed_account)
                               (buffered basic_params second_zip) (fresh 0))) = [])).
Proof.
  split; [reflexivity |].
  exact (at_most_the_last_file_comes_out (scripted deployed_account)
           (Some basic_params) (Some basic_options) piped 0 _ eq_refl).
Defined.

Lemma file_is_pushed_on_success_witness :
  pushes_on_success (buffered basic_params package_zip)
    (calls (scripted deployed_account) (buffered basic_params package_zip) 0)
    (Called None) [package_zip]
  /\ pushes_on_success (buffered basic_params package_zip)
       (calls (scripted locked_account) (buffered basic_params package_zip) 0)
       (Called (Some (plugin_error "ServiceException"))) []
  /\ pushes_on_success (buffered basic_params package_zip)
       (calls silent_account (buffered basic_params package_zip) 0)
       (Uncalled missing_message) [].
Proof.
  split; [| split].
  - apply (file_is_pushed_on_success (scripted deployed_account)
             (buffered basic_params package_zip) 0).
  - apply (file_is_pushed_on_success (scripted locked_account)
             (buffered basic_params package_zip) 0).
  - apply (file_is_pushed_on_success silent_account
             (buffered basic_params package_zip) 0).
Defined.

Lemma alias_is_upserted_witness :
  upserts_alias (stream_params (buffered (with_alias basic_params) package_zip))
    (calls (scripted aliased_account) (buffered (with_alias basic_params) package_zip) 0)
  /\ upserts_alias (stream_params (buffered (with_alias basic_params) package_zip))
       (calls (scripted no_alias_account) (buffered (with_alias basic_params) package_zip) 0).
Proof.
  split.
  - apply (alias_is_upserted (scripted aliased_account)). reflexivity.
  - apply (alias_is_upserted (scripted no_alias_account)). reflexivity.
Defined.

Lemma main_ignores_the_settings_witness :
  (forall e, main (Some basic_params) (Some basic_options) = inl e <->
             main (Some frugal_params) (Some basic_options) = inl e)
  /\ ((exists plugin, main (Some basic_params) (Some basic_options) = inr plugin) <->
      (exists plugin, main (Some frugal_params) (Some basic_options) = inr plugin)).
Proof.
  apply (main_ignores_the_settings basic_params frugal_params (Some basic_options));
    reflexivity.
Defined.
